(** * QXmpp payload codecs: external service discovery (XEP-0215) and OMEMO data (XEP-0384)

    A shallow embedding of
      - src/base/QXmppExternalServiceDiscoveryIq.cpp
      - src/omemo/QXmppOmemoData.cpp
    together with the small part of Qt they run on (QString number
    conversions, the DOM tree that is read, the stream writer that is written
    to), followed by the properties of the recognise / parse / serialise
    contract that these payload types obey.

    Conventions.
      - A QString is a [string] (characters of the Latin-1 range); an [int]
        or [uint32_t] is a [Z] with the wrap-around of the C++ conversion
        written out.
      - A QDomElement is a handle that may be null: an [option] of an
        element node.
      - A QXmlStreamWriter is the sequence of calls made on it; [toXml]
        functions pass the writer along explicitly.
      - [parse] methods mutate [this]; they take the object before the call
        and return the object after it. *)

From Stdlib Require Import ZArith String Ascii Bool Lia.
From Stdlib Require Import Decimal DecimalString DecimalPos DecimalZ.
From stdpp Require Import base option list gmap.

Local Open Scope string_scope.
Local Open Scope list_scope.
Local Open Scope Z_scope.

(* ===================================================================== *)
(** * Qt: strings and numbers *)
(* ===================================================================== *)

Module Qt.

(** [QString::isEmpty]. *)
Definition isEmpty (s : string) : bool :=
  match s with
  | EmptyString => true
  | String _ _ => false
  end.

Definition INT_MIN : Z := - 2 ^ 31.
Definition INT_MAX : Z := 2 ^ 31 - 1.

(** Conversion of an [int] to [uint32_t] (value modulo 2^32). *)
Definition to_uint32 (z : Z) : Z := z mod 2 ^ 32.

(** [QString::number] in base 10, for [int] and for [uint] alike: the
    decimal digits, with a leading minus for a negative number. *)
Definition number (z : Z) : string := NilZero.string_of_int (Z.to_int z).

(** [QChar::isSpace] on the Latin-1 range, the white space that number
    parsing skips at both ends: tab, line feed, vertical tab, form feed,
    carriage return, space, next line (U+0085) and no-break space (U+00A0). *)
Definition isSpace (c : ascii) : bool :=
  let n := Z.of_nat (nat_of_ascii c) in
  ((9 <=? n) && (n <=? 13)) || (n =? 32) || (n =? 133) || (n =? 160).

Fixpoint skipLeadingSpace (s : string) : string :=
  match s with
  | EmptyString => EmptyString
  | String c r => if isSpace c then skipLeadingSpace r else s
  end.

Fixpoint dropTrailingSpace (s : string) : string :=
  match s with
  | EmptyString => EmptyString
  | String c r =>
      let r' := dropTrailingSpace r in
      if isSpace c && isEmpty r' then EmptyString else String c r'
  end.

(** [QString::trimmed]. *)
Definition trimmed (s : string) : string :=
  dropTrailingSpace (skipLeadingSpace s).

(** A non-empty run of decimal digits. *)
Definition digitsToZ (s : string) : option Z :=
  if isEmpty s then None else Z.of_uint <$> NilZero.uint_of_string s.

(** An optional sign followed by a non-empty run of decimal digits. *)
Definition signedToZ (s : string) : option Z :=
  match s with
  | String "-" r => Z.opp <$> digitsToZ r
  | String "+" r => digitsToZ r
  | _ => digitsToZ s
  end.

(** [QString::toInt()] with the default base 10 and no [ok] pointer:
    surrounding white space is ignored; the result is 0 when the text is not
    a number or when the number does not fit in an [int]. *)
Definition toInt (s : string) : Z :=
  match signedToZ (trimmed s) with
  | Some z => if (INT_MIN <=? z) && (z <=? INT_MAX) then z else 0
  | None => 0
  end.

End Qt.

(* ===================================================================== *)
(** * Qt: the DOM tree that [parse] reads *)
(* ===================================================================== *)

Module Dom.

(** A non-null element node: tag name, namespace URI, attributes in document
    order, and child nodes in document order, each either an element or a
    text node. *)
#[warnings="-register-all"]
Inductive ElementNode : Type :=
  Element (tag : string) (ns : string)
          (attrs : list (string * string))
          (nodes : list (ElementNode + string)).

(** A [QDomElement] value is a handle that may be null. *)
Abbreviation QDomElement := (option ElementNode).

Definition isNull (e : QDomElement) : bool :=
  match e with None => true | Some _ => false end.

(** [QDomElement::tagName]; empty for the null element. *)
Definition tagName (e : QDomElement) : string :=
  match e with Some (Element t _ _ _) => t | None => "" end.

(** [QDomNode::namespaceURI]; empty for the null element. *)
Definition namespaceURI (e : QDomElement) : string :=
  match e with Some (Element _ u _ _) => u | None => "" end.

(** [QDomElement::attributes]: the attribute map, here in document order. *)
Definition attributes (e : QDomElement) : list (string * string) :=
  match e with Some (Element _ _ a _) => a | None => [] end.

Definition childNodes (e : QDomElement) : list (ElementNode + string) :=
  match e with Some (Element _ _ _ c) => c | None => [] end.

Fixpoint lookupAttribute (a : list (string * string)) (name : string) : option string :=
  match a with
  | [] => None
  | (k, v) :: r => if String.eqb k name then Some v else lookupAttribute r name
  end.

(** [QDomNamedNodeMap::contains]. *)
Definition contains (a : list (string * string)) (name : string) : bool :=
  match lookupAttribute a name with Some _ => true | None => false end.

(** [QDomElement::attribute(name)] with the default default value: the
    attribute's text, or the empty string when there is no such attribute. *)
Definition attribute (e : QDomElement) (name : string) : string :=
  match lookupAttribute (attributes e) name with Some v => v | None => "" end.

(** The children that are elements, in document order. *)
Definition childElements (e : QDomElement) : list ElementNode :=
  omap (fun n => match n with inl c => Some c | inr _ => None end) (childNodes e).

(** [QDomElement::text]: the text nodes of the whole subtree, concatenated
    in document order. *)
Fixpoint nodeText (n : ElementNode) : string :=
  match n with
  | Element _ _ _ c =>
      (fix go (l : list (ElementNode + string)) : string :=
         match l with
         | [] => ""
         | inl k :: r => nodeText k ++ go r
         | inr s :: r => s ++ go r
         end)%string c
  end.

Definition text (e : QDomElement) : string :=
  match e with Some n => nodeText n | None => "" end.

(** The child elements called [name]; every child element when [name] is
    empty. *)
Definition childElementsNamed (e : QDomElement) (name : string) : list ElementNode :=
  List.filter (fun c => Qt.isEmpty name || String.eqb (tagName (Some c)) name)
              (childElements e).

(** [QDomNode::firstChildElement(tagName)]: the first child element with
    that tag name (the first child element when the name is empty), null
    when there is none. *)
Definition firstChildElement (e : QDomElement) (name : string) : QDomElement :=
  head (childElementsNamed e name).

End Dom.

Import Dom.

(* ===================================================================== *)
(** * Qt: the stream writer that [toXml] writes to *)
(* ===================================================================== *)

Module Writer.

(** The calls this code makes on a [QXmlStreamWriter]. *)
Inductive XmlCall : Type :=
| StartElement (name : string)
| DefaultNamespace (uri : string)
| Attribute (name value : string)
| Characters (text : string)
| EndElement.

(** The writer is the sequence of calls received so far. *)
Abbreviation QXmlStreamWriter := (list XmlCall).

Definition writeStartElement (name : string) (w : QXmlStreamWriter) : QXmlStreamWriter :=
  w ++ [StartElement name].
Definition writeDefaultNamespace (uri : string) (w : QXmlStreamWriter) : QXmlStreamWriter :=
  w ++ [DefaultNamespace uri].
Definition writeAttribute (name value : string) (w : QXmlStreamWriter) : QXmlStreamWriter :=
  w ++ [Attribute name value].
Definition writeCharacters (text : string) (w : QXmlStreamWriter) : QXmlStreamWriter :=
  w ++ [Characters text].
Definition writeEndElement (w : QXmlStreamWriter) : QXmlStreamWriter :=
  w ++ [EndElement].

(** ** Reading the written document back as a DOM tree

    An element that has been opened and not yet closed.  Child nodes are
    kept most recent first. *)
Record OpenElement : Type := mkOpen {
  o_tag : string;
  o_ns : string;
  o_attrs : list (string * string);
  o_nodes : list (ElementNode + string)
}.

(** The elements still open, innermost first, and the top-level elements
    already closed, most recent first. *)
Record Reader : Type := mkReader {
  r_open : list OpenElement;
  r_closed : list ElementNode
}.

Definition emptyReader : Reader := mkReader [] [].

(** Text is appended to the text node that precedes it, as an XML parser
    delivers one text node for a run of characters; empty text leaves no
    node. *)
Definition addText (s : string) (nodes : list (ElementNode + string)) : list (ElementNode + string) :=
  if Qt.isEmpty s then nodes
  else match nodes with
       | inr t :: r => inr (t ++ s)%string :: r
       | _ => inr s :: nodes
       end.

Definition closeElement (o : OpenElement) : ElementNode :=
  Element (o_tag o) (o_ns o) (o_attrs o) (rev (o_nodes o)).

(** One call.  An element starts in the default namespace in force where
    it is opened; a call that needs an open element fails without one. *)
Definition readCall (c : XmlCall) (r : Reader) : option Reader :=
  match c, r_open r with
  | StartElement n, [] => Some (mkReader [mkOpen n "" [] []] (r_closed r))
  | StartElement n, o :: k => Some (mkReader (mkOpen n (o_ns o) [] [] :: o :: k) (r_closed r))
  | DefaultNamespace u, o :: k =>
      Some (mkReader (mkOpen (o_tag o) u (o_attrs o) (o_nodes o) :: k) (r_closed r))
  | Attribute n v, o :: k =>
      Some (mkReader (mkOpen (o_tag o) (o_ns o) (o_attrs o ++ [(n, v)]) (o_nodes o) :: k) (r_closed r))
  | Characters s, o :: k =>
      Some (mkReader (mkOpen (o_tag o) (o_ns o) (o_attrs o) (addText s (o_nodes o)) :: k) (r_closed r))
  | EndElement, [o] => Some (mkReader [] (closeElement o :: r_closed r))
  | EndElement, o :: p :: k =>
      Some (mkReader (mkOpen (o_tag p) (o_ns p) (o_attrs p) (inl (closeElement o) :: o_nodes p) :: k)
                     (r_closed r))
  | _, [] => None
  end.

Fixpoint readCalls (w : QXmlStreamWriter) (r : Reader) : option Reader :=
  match w with
  | [] => Some r
  | c :: w' => match readCall c r with
               | Some r' => readCalls w' r'
               | None => None
               end
  end.

(** The element a writer has emitted: the calls form exactly one complete
    top-level element.  Null otherwise. *)
Definition emitted (w : QXmlStreamWriter) : QDomElement :=
  match readCalls w emptyReader with
  | Some (mkReader [] [e]) => Some e
  | _ => None
  end.

(** The number of elements a sequence of calls opens. *)
Definition opened (w : QXmlStreamWriter) : nat :=
  length (List.filter (fun c => match c with StartElement _ => true | _ => false end) w).

(** The attributes a sequence of calls writes, in order. *)
Definition writtenAttributes (w : QXmlStreamWriter) : list (string * string) :=
  omap (fun c => match c with Attribute n v => Some (n, v) | _ => None end) w.

End Writer.

Import Writer.

(* ===================================================================== *)
(** * Qt and utility codecs the payload types call *)
(* ===================================================================== *)

(** The conversions that this code obtains from Qt and from QXmppUtils and
    only passes values through: timestamps, base64, and the order in which
    a [QHash] is iterated. *)
Class QtCodecs : Type := {
  QDateTime : Type;
  (** [QDateTime::toString(Qt::ISODateWithMs)] *)
  toStringISODateWithMs : QDateTime -> string;
  (** [QXmppUtils::datetimeFromString] *)
  datetimeFromString : string -> QDateTime;
  (** [QByteArray::toBase64], as the text handed to [writeCharacters] *)
  toBase64 : list Byte.byte -> string;
  (** [QByteArray::fromBase64] of [QString::toLatin1] of a text *)
  fromBase64 : string -> list Byte.byte;
  (** the entries of a [QHash] from [cbegin] to [cend] *)
  qhashItems : gmap Z (list Byte.byte) -> list (Z * list Byte.byte);
  qhashItems_perm : forall m, qhashItems m ≡ₚ map_to_list m
}.

(** QXmppConstants: the namespaces of the two protocol extensions. *)
Definition ns_external_service_discovery : string := "urn:xmpp:extdisco:2".
Definition ns_omemo_2 : string := "urn:xmpp:omemo:2".

(** QXmppUtils_p.h *)
Module Utils.

(** The test of the two helpers below: a tag name and a namespace restrict
    the children only when they are given (non-empty). *)
Definition matches (tagName xmlNs : string) (c : ElementNode) : bool :=
  (Qt.isEmpty tagName || String.eqb (Dom.tagName (Some c)) tagName)
  && (Qt.isEmpty xmlNs || String.eqb (Dom.namespaceURI (Some c)) xmlNs).

(** Modelled from the spec: [iterChildElements] is declared in
    QXmppUtils_p.h, which is not among the sources.  It is the parse
    source's "iterate immediate children, optionally filtered by tag": the
    child elements of [el] in document order, restricted to a tag name and
    to a namespace when these are given (non-empty). *)
Definition iterChildElements (el : QDomElement) (tagName xmlNs : string) : list ElementNode :=
  List.filter (matches tagName xmlNs) (Dom.childElements el).

(** Modelled from the spec: [firstChildElement] is declared in
    QXmppUtils_p.h, which is not among the sources.  It is the parse
    source's "get first child by tag": the first of the child elements
    that [iterChildElements] visits, null when there is none. *)
Definition firstChildElement (el : QDomElement) (tagName xmlNs : string) : QDomElement :=
  head (iterChildElements el tagName xmlNs).

(** Modelled from the spec: [writeOptionalXmlAttribute] is declared in
    QXmppUtils_p.h, which is not among the sources.  [toXml] calls it for
    the required attributes and, behind a test of its own, for each optional
    field that is set.  Of these the spec says that serialize "writes the
    required attributes unconditionally" and "writes each set optional
    field" (section 4.1), and that for an optional field "absence is
    distinguishable from empty-string" (section 3).  The helper therefore
    writes the attribute it is handed, whatever the text. *)
Definition writeOptionalXmlAttribute (w : QXmlStreamWriter) (name value : string) : QXmlStreamWriter :=
  writeAttribute name value w.

End Utils.

(* ===================================================================== *)
(** * QXmppExternalServiceDiscoveryIq.cpp *)
(* ===================================================================== *)

Module ExternalService.

Inductive Action : Type := Add | Delete | Modify.
Inductive Transport : Type := Tcp | Udp.

Definition actionToString (action : Action) : string :=
  match action with
  | Add => "add"
  | Delete => "delete"
  | Modify => "modify"
  end.

Definition actionFromString (s : string) : option Action :=
  if String.eqb s "add" then Some Add
  else if String.eqb s "delete" then Some Delete
  else if String.eqb s "modify" then Some Modify
  else None.

Definition transportToString (transport : Transport) : string :=
  match transport with
  | Tcp => "tcp"
  | Udp => "udp"
  end.

Definition transportFromString (s : string) : option Transport :=
  if String.eqb s "tcp" then Some Tcp
  else if String.eqb s "udp" then Some Udp
  else None.

Section Service.
Context `{QtCodecs}.

(** [QXmppExternalServicePrivate] *)
Record QXmppExternalService : Type := mkService {
  host : string;
  type : string;
  action : option Action;
  expires : option QDateTime;
  name : option string;
  password : option string;
  port : option Z;
  restricted : option bool;
  transport : option Transport;
  username : option string
}.

(** A newly constructed service. *)
Definition newService : QXmppExternalService :=
  mkService "" "" None None None None None None None None.

Definition setHost (d : QXmppExternalService) (x : string) :=
  mkService x (type d) (action d) (expires d) (name d) (password d) (port d) (restricted d) (transport d) (username d).
Definition setType (d : QXmppExternalService) (x : string) :=
  mkService (host d) x (action d) (expires d) (name d) (password d) (port d) (restricted d) (transport d) (username d).
Definition setAction (d : QXmppExternalService) (x : option Action) :=
  mkService (host d) (type d) x (expires d) (name d) (password d) (port d) (restricted d) (transport d) (username d).
Definition setExpires (d : QXmppExternalService) (x : option QDateTime) :=
  mkService (host d) (type d) (action d) x (name d) (password d) (port d) (restricted d) (transport d) (username d).
Definition setName (d : QXmppExternalService) (x : option string) :=
  mkService (host d) (type d) (action d) (expires d) x (password d) (port d) (restricted d) (transport d) (username d).
Definition setPassword (d : QXmppExternalService) (x : option string) :=
  mkService (host d) (type d) (action d) (expires d) (name d) x (port d) (restricted d) (transport d) (username d).
Definition setPort (d : QXmppExternalService) (x : option Z) :=
  mkService (host d) (type d) (action d) (expires d) (name d) (password d) x (restricted d) (transport d) (username d).
Definition setRestricted (d : QXmppExternalService) (x : option bool) :=
  mkService (host d) (type d) (action d) (expires d) (name d) (password d) (port d) x (transport d) (username d).
Definition setTransport (d : QXmppExternalService) (x : option Transport) :=
  mkService (host d) (type d) (action d) (expires d) (name d) (password d) (port d) (restricted d) x (username d).
Definition setUsername (d : QXmppExternalService) (x : option string) :=
  mkService (host d) (type d) (action d) (expires d) (name d) (password d) (port d) (restricted d) (transport d) x.

(** [QXmppExternalService::isExternalService] *)
Definition isExternalService (element : QDomElement) : bool :=
  if negb (String.eqb (Dom.tagName element) "service") then false
  else negb (Qt.isEmpty (Dom.attribute element "host"))
       && negb (Qt.isEmpty (Dom.attribute element "type")).

(** [QXmppExternalService::parse] *)
Definition parse (this : QXmppExternalService) (el : QDomElement) : QXmppExternalService :=
  let attributes := Dom.attributes el in
  let d := setHost this (Dom.attribute el "host") in
  let d := setType d (Dom.attribute el "type") in
  let d := setAction d (actionFromString (Dom.attribute el "action")) in
  let d := if Dom.contains attributes "expires"
           then setExpires d (Some (datetimeFromString (Dom.attribute el "expires")))
           else d in
  let d := if Dom.contains attributes "name"
           then setName d (Some (Dom.attribute el "name"))
           else d in
  let d := if Dom.contains attributes "password"
           then setPassword d (Some (Dom.attribute el "password"))
           else d in
  let d := if Dom.contains attributes "port"
           then setPort d (Some (Qt.toInt (Dom.attribute el "port")))
           else d in
  let d := if Dom.contains attributes "restricted"
           then let restrictedStr := Dom.attribute el "restricted" in
                setRestricted d (Some (String.eqb restrictedStr "true" || String.eqb restrictedStr "1"))
           else d in
  let d := setTransport d (transportFromString (Dom.attribute el "transport")) in
  let d := if Dom.contains attributes "username"
           then setUsername d (Some (Dom.attribute el "username"))
           else d in
  d.

(** [QXmppExternalService::toXml] *)
Definition toXml (d : QXmppExternalService) (writer : QXmlStreamWriter) : QXmlStreamWriter :=
  let w := writeStartElement "service" writer in
  let w := Utils.writeOptionalXmlAttribute w "host" (host d) in
  let w := Utils.writeOptionalXmlAttribute w "type" (type d) in
  let w := match action d with
           | Some a => Utils.writeOptionalXmlAttribute w "action" (actionToString a)
           | None => w
           end in
  let w := match expires d with
           | Some t => Utils.writeOptionalXmlAttribute w "expires" (toStringISODateWithMs t)
           | None => w
           end in
  let w := match name d with
           | Some s => Utils.writeOptionalXmlAttribute w "name" s
           | None => w
           end in
  let w := match password d with
           | Some s => Utils.writeOptionalXmlAttribute w "password" s
           | None => w
           end in
  let w := match port d with
           | Some p => Utils.writeOptionalXmlAttribute w "port" (Qt.number p)
           | None => w
           end in
  let w := match restricted d with
           | Some b => Utils.writeOptionalXmlAttribute w "restricted" (if b then "true" else "false")
           | None => w
           end in
  let w := match transport d with
           | Some t => Utils.writeOptionalXmlAttribute w "transport" (transportToString t)
           | None => w
           end in
  let w := match username d with
           | Some s => Utils.writeOptionalXmlAttribute w "username" s
           | None => w
           end in
  writeEndElement w.

(** [QXmppExternalServiceDiscoveryIqPrivate]: the part of the IQ that
    this file reads and writes. *)
Record QXmppExternalServiceDiscoveryIq : Type := mkIq {
  externalServices : list QXmppExternalService
}.

Definition newIq : QXmppExternalServiceDiscoveryIq := mkIq [].

Definition addExternalService (iq : QXmppExternalServiceDiscoveryIq) (s : QXmppExternalService) :=
  mkIq (externalServices iq ++ [s]).

(** [QXmppExternalServiceDiscoveryIq::checkIqType] *)
Definition checkIqType (tagName xmlNamespace : string) : bool :=
  String.eqb tagName "services" && String.eqb xmlNamespace ns_external_service_discovery.

(** [QXmppExternalServiceDiscoveryIq::parseElementFromChild] *)
Definition parseElementFromChild (this : QXmppExternalServiceDiscoveryIq) (element : QDomElement)
  : QXmppExternalServiceDiscoveryIq :=
  foldl (fun iq el =>
           if isExternalService (Some el)
           then let service := parse newService (Some el) in
                addExternalService iq service
           else iq)
        this
        (Utils.iterChildElements (Utils.firstChildElement element "services" "") "" "").

(** [QXmppExternalServiceDiscoveryIq::toXmlElementFromChild] *)
Definition toXmlElementFromChild (this : QXmppExternalServiceDiscoveryIq) (writer : QXmlStreamWriter)
  : QXmlStreamWriter :=
  let w := writeStartElement "services" writer in
  let w := writeDefaultNamespace ns_external_service_discovery w in
  let w := foldl (fun w item => toXml item w) w (externalServices this) in
  writeEndElement w.

End Service.

End ExternalService.

(* ===================================================================== *)
(** * QXmppOmemoData.cpp *)
(* ===================================================================== *)

(** ** QXmppOmemoDeviceElement *)

Module DeviceElement.

Record QXmppOmemoDeviceElement : Type := mkDevice {
  m_id : Z;          (* uint32_t, 0 when unset *)
  m_label : string
}.

(** A newly constructed device element. *)
Definition newDevice : QXmppOmemoDeviceElement := mkDevice 0 "".

(** [QXmppOmemoDeviceElement::operator==]: the IDs match. *)
Definition operatorEq (this other : QXmppOmemoDeviceElement) : bool :=
  m_id this =? m_id other.

Definition setId (this : QXmppOmemoDeviceElement) (id : Z) : QXmppOmemoDeviceElement :=
  mkDevice id (m_label this).

Definition setLabel (this : QXmppOmemoDeviceElement) (label : string) : QXmppOmemoDeviceElement :=
  mkDevice (m_id this) label.

(** [QXmppOmemoDeviceElement::parse] *)
Definition parse (this : QXmppOmemoDeviceElement) (element : QDomElement)
  : QXmppOmemoDeviceElement :=
  let this := setId this (Qt.to_uint32 (Qt.toInt (Dom.attribute element "id"))) in
  setLabel this (Dom.attribute element "label").

(** [QXmppOmemoDeviceElement::toXml] *)
Definition toXml (this : QXmppOmemoDeviceElement) (writer : QXmlStreamWriter)
  : QXmlStreamWriter :=
  let w := writeStartElement "device" writer in
  let w := writeAttribute "id" (Qt.number (m_id this)) w in
  let w := if negb (Qt.isEmpty (m_label this))
           then writeAttribute "label" (m_label this) w
           else w in
  writeEndElement w.

(** [QXmppOmemoDeviceElement::isOmemoDeviceElement] *)
Definition isOmemoDeviceElement (element : QDomElement) : bool :=
  String.eqb (Dom.tagName element) "device"
  && String.eqb (Dom.namespaceURI element) ns_omemo_2.

End DeviceElement.

(** ** QXmppOmemoDeviceList, a [QList] of device elements *)

Module DeviceList.

Abbreviation QXmppOmemoDeviceList := (list DeviceElement.QXmppOmemoDeviceElement).

(** [QXmppOmemoDeviceList::parse] *)
Definition parse (this : QXmppOmemoDeviceList) (element : QDomElement)
  : QXmppOmemoDeviceList :=
  foldl (fun (this : QXmppOmemoDeviceList) device =>
           let deviceElement := DeviceElement.parse DeviceElement.newDevice (Some device) in
           this ++ [deviceElement])
        this
        (Utils.iterChildElements element "device" "").

(** [QXmppOmemoDeviceList::toXml] *)
Definition toXml (this : QXmppOmemoDeviceList) (writer : QXmlStreamWriter)
  : QXmlStreamWriter :=
  let w := writeStartElement "devices" writer in
  let w := writeDefaultNamespace ns_omemo_2 w in
  let w := foldl (fun w device => DeviceElement.toXml device w) w this in
  writeEndElement w.

(** [QXmppOmemoDeviceList::isOmemoDeviceList] *)
Definition isOmemoDeviceList (element : QDomElement) : bool :=
  String.eqb (Dom.tagName element) "devices"
  && String.eqb (Dom.namespaceURI element) ns_omemo_2.

End DeviceList.

(** ** QXmppOmemoDeviceBundle *)

Module DeviceBundle.

Record QXmppOmemoDeviceBundle : Type := mkBundle {
  m_publicIdentityKey : list Byte.byte;
  m_signedPublicPreKey : list Byte.byte;
  m_signedPublicPreKeyId : Z;          (* uint32_t, 0 when unset *)
  m_signedPublicPreKeySignature : list Byte.byte;
  m_publicPreKeys : gmap Z (list Byte.byte)   (* QHash<uint32_t, QByteArray> *)
}.

(** A newly constructed bundle. *)
Definition newBundle : QXmppOmemoDeviceBundle := mkBundle [] [] 0 [] ∅.

Definition setPublicIdentityKey (b : QXmppOmemoDeviceBundle) (key : list Byte.byte) :=
  mkBundle key (m_signedPublicPreKey b) (m_signedPublicPreKeyId b)
           (m_signedPublicPreKeySignature b) (m_publicPreKeys b).

Definition setSignedPublicPreKey (b : QXmppOmemoDeviceBundle) (key : list Byte.byte) :=
  mkBundle (m_publicIdentityKey b) key (m_signedPublicPreKeyId b)
           (m_signedPublicPreKeySignature b) (m_publicPreKeys b).

Definition setSignedPublicPreKeyId (b : QXmppOmemoDeviceBundle) (id : Z) :=
  mkBundle (m_publicIdentityKey b) (m_signedPublicPreKey b) id
           (m_signedPublicPreKeySignature b) (m_publicPreKeys b).

Definition setSignedPublicPreKeySignature (b : QXmppOmemoDeviceBundle) (signature : list Byte.byte) :=
  mkBundle (m_publicIdentityKey b) (m_signedPublicPreKey b) (m_signedPublicPreKeyId b)
           signature (m_publicPreKeys b).

(** [QXmppOmemoDeviceBundle::addPublicPreKey]: [m_publicPreKeys.insert]. *)
Definition addPublicPreKey (b : QXmppOmemoDeviceBundle) (id : Z) (key : list Byte.byte) :=
  mkBundle (m_publicIdentityKey b) (m_signedPublicPreKey b) (m_signedPublicPreKeyId b)
           (m_signedPublicPreKeySignature b) (<[id := key]> (m_publicPreKeys b)).

(** [QXmppOmemoDeviceBundle::removePublicPreKey]: [m_publicPreKeys.remove]. *)
Definition removePublicPreKey (b : QXmppOmemoDeviceBundle) (id : Z) :=
  mkBundle (m_publicIdentityKey b) (m_signedPublicPreKey b) (m_signedPublicPreKeyId b)
           (m_signedPublicPreKeySignature b) (delete id (m_publicPreKeys b)).

Section Codecs.
Context `{QtCodecs}.

(** [QXmppOmemoDeviceBundle::parse].  The loop over
    [firstChildElement("pk")] and [nextSiblingElement("pk")] visits the
    child elements called "pk" in document order. *)
Definition parse (this : QXmppOmemoDeviceBundle) (element : QDomElement)
  : QXmppOmemoDeviceBundle :=
  let this := setPublicIdentityKey this
                (fromBase64 (Dom.text (Dom.firstChildElement element "ik"))) in

  let signedPublicPreKeyElement := Dom.firstChildElement element "spk" in
  let this :=
    if negb (Dom.isNull signedPublicPreKeyElement)
    then let this := setSignedPublicPreKeyId this
                       (Qt.to_uint32 (Qt.toInt (Dom.attribute signedPublicPreKeyElement "id"))) in
         setSignedPublicPreKey this (fromBase64 (Dom.text signedPublicPreKeyElement))
    else this in
  let this := setSignedPublicPreKeySignature this
                (fromBase64 (Dom.text (Dom.firstChildElement element "spks"))) in

  let publicPreKeysElement := Dom.firstChildElement element "prekeys" in
  if negb (Dom.isNull publicPreKeysElement)
  then foldl (fun this publicPreKeyElement =>
                addPublicPreKey this
                  (Qt.to_uint32 (Qt.toInt (Dom.attribute (Some publicPreKeyElement) "id")))
                  (fromBase64 (Dom.text (Some publicPreKeyElement))))
             this
             (Dom.childElementsNamed publicPreKeysElement "pk")
  else this.

(** [QXmppOmemoDeviceBundle::toXml] *)
Definition toXml (this : QXmppOmemoDeviceBundle) (writer : QXmlStreamWriter)
  : QXmlStreamWriter :=
  let w := writeStartElement "bundle" writer in
  let w := writeDefaultNamespace ns_omemo_2 w in

  let w := writeStartElement "ik" w in
  let w := writeCharacters (toBase64 (m_publicIdentityKey this)) w in
  let w := writeEndElement w in

  let w := writeStartElement "spk" w in
  let w := writeAttribute "id" (Qt.number (m_signedPublicPreKeyId this)) w in
  let w := writeCharacters (toBase64 (m_signedPublicPreKey this)) w in
  let w := writeEndElement w in

  let w := writeStartElement "spks" w in
  let w := writeCharacters (toBase64 (m_signedPublicPreKeySignature this)) w in
  let w := writeEndElement w in

  let w := writeStartElement "prekeys" w in
  let w := foldl (fun w it =>
                    let w := writeStartElement "pk" w in
                    let w := writeAttribute "id" (Qt.number (fst it)) w in
                    let w := writeCharacters (toBase64 (snd it)) w in
                    writeEndElement w)
                 w (qhashItems (m_publicPreKeys this)) in
  let w := writeEndElement w in  (* prekeys *)

  writeEndElement w.  (* bundle *)

End Codecs.

(** [QXmppOmemoDeviceBundle::isOmemoDeviceBundle] *)
Definition isOmemoDeviceBundle (element : QDomElement) : bool :=
  String.eqb (Dom.tagName element) "bundle"
  && String.eqb (Dom.namespaceURI element) ns_omemo_2.

End DeviceBundle.

(** ** QXmppOmemoIq *)

Module OmemoIq.

Section Recogniser.
(** [QXmppOmemoElement::isOmemoElement], the recogniser of the encrypted
    payload; QXmppOmemoElement is defined elsewhere. *)
Variable isOmemoElement : QDomElement -> bool.

(** [QXmppOmemoIq::isOmemoIq] *)
Definition isOmemoIq (element : QDomElement) : bool :=
  let child := Dom.firstChildElement element "" in
  negb (Dom.isNull child) && isOmemoElement child.
End Recogniser.

End OmemoIq.

(* ===================================================================== *)
(** * A reference instance of the codecs, for running the code on examples *)
(* ===================================================================== *)

Module Reference.

(** ** Base64 with the standard alphabet and padding *)

Definition alphabet : string :=
  "ABCDEFGHIJKLMNOPQRSTUVWXYZabcdefghijklmnopqrstuvwxyz0123456789+/".

Definition sextetChar (n : Z) : ascii :=
  match String.get (Z.to_nat n) alphabet with
  | Some c => c
  | None => "="%char
  end.

Definition byteToZ (b : Byte.byte) : Z := Z.of_N (Byte.to_N b).

Definition byteOfZ (z : Z) : Byte.byte :=
  match Byte.of_N (Z.to_N z) with
  | Some b => b
  | None => Byte.x00
  end.

Fixpoint encode (l : list Byte.byte) : string :=
  match l with
  | [] => ""
  | [a] =>
      let n := Z.shiftl (byteToZ a) 16 in
      String (sextetChar (Z.shiftr n 18))
        (String (sextetChar (Z.land (Z.shiftr n 12) 63)) "==")
  | [a; b] =>
      let n := Z.lor (Z.shiftl (byteToZ a) 16) (Z.shiftl (byteToZ b) 8) in
      String (sextetChar (Z.shiftr n 18))
        (String (sextetChar (Z.land (Z.shiftr n 12) 63))
           (String (sextetChar (Z.land (Z.shiftr n 6) 63)) "="))
  | a :: b :: c :: r =>
      let n := Z.lor (Z.lor (Z.shiftl (byteToZ a) 16) (Z.shiftl (byteToZ b) 8)) (byteToZ c) in
      String (sextetChar (Z.shiftr n 18))
        (String (sextetChar (Z.land (Z.shiftr n 12) 63))
           (String (sextetChar (Z.land (Z.shiftr n 6) 63))
              (String (sextetChar (Z.land n 63)) (encode r))))
  end.

Definition sextetOf (c : ascii) : option Z :=
  let n := Z.of_nat (nat_of_ascii c) in
  if (65 <=? n) && (n <=? 90) then Some (n - 65)
  else if (97 <=? n) && (n <=? 122) then Some (n - 97 + 26)
  else if (48 <=? n) && (n <=? 57) then Some (n - 48 + 52)
  else if n =? 43 then Some 62
  else if n =? 47 then Some 63
  else None.

(** [QByteArray::fromBase64] with its default options: decoding keeps a bit
    buffer and skips every character that is not in the alphabet, the
    padding included. *)
Fixpoint decode (s : string) (buf nbits : Z) : list Byte.byte :=
  match s with
  | EmptyString => []
  | String c r =>
      match sextetOf c with
      | Some d =>
          let buf := Z.lor (Z.shiftl buf 6) d in
          let nbits := nbits + 6 in
          if 8 <=? nbits
          then let nbits := nbits - 8 in
               byteOfZ (Z.shiftr buf nbits) :: decode r (Z.land buf (Z.shiftl 1 nbits - 1)) nbits
          else decode r buf nbits
      | None => decode r buf nbits
      end
  end.

(** ** UTC timestamps in the profile yyyy-MM-ddTHH:mm:ss.zzzZ *)

Record UtcTime : Type := mkUtc {
  year : Z; month : Z; day : Z;
  hour : Z; minute : Z; second : Z; msec : Z
}.

Definition isLeap (y : Z) : bool :=
  ((y mod 4 =? 0) && negb (y mod 100 =? 0)) || (y mod 400 =? 0).

Definition daysInMonth (y m : Z) : Z :=
  if m =? 2 then (if isLeap y then 29 else 28)
  else if (m =? 4) || (m =? 6) || (m =? 9) || (m =? 11) then 30
  else 31.

Definition validUtc (t : UtcTime) : bool :=
  (0 <=? year t) && (year t <=? 9999)
  && (1 <=? month t) && (month t <=? 12)
  && (1 <=? day t) && (day t <=? daysInMonth (year t) (month t))
  && (0 <=? hour t) && (hour t <=? 23)
  && (0 <=? minute t) && (minute t <=? 59)
  && (0 <=? second t) && (second t <=? 59)
  && (0 <=? msec t) && (msec t <=? 999).

Fixpoint zeros (n : nat) : string :=
  match n with O => "" | S k => String "0" (zeros k) end.

(** A number padded with zeros on the left to a width. *)
Definition padded (width : nat) (z : Z) : string :=
  let s := Qt.number z in
  (zeros (width - String.length s) ++ s)%string.

(** The null [QDateTime] is [None]; its text is empty. *)
Definition utcToString (d : option UtcTime) : string :=
  match d with
  | None => ""
  | Some t =>
      if validUtc t
      then (padded 4 (year t) ++ "-" ++ padded 2 (month t) ++ "-" ++ padded 2 (day t)
            ++ "T" ++ padded 2 (hour t) ++ ":" ++ padded 2 (minute t) ++ ":"
            ++ padded 2 (second t) ++ "." ++ padded 3 (msec t) ++ "Z")%string
      else ""
  end.

Definition field (s : string) (start len : nat) : option Z :=
  Qt.digitsToZ (String.substring start len s).

Definition literal (s : string) (at_ : nat) (c : string) : bool :=
  String.eqb (String.substring at_ 1 s) c.

Definition utcFromString (s : string) : option UtcTime :=
  if (String.length s =? 24)%nat
     && literal s 4 "-" && literal s 7 "-" && literal s 10 "T"
     && literal s 13 ":" && literal s 16 ":" && literal s 19 "." && literal s 23 "Z"
  then
    match field s 0 4, field s 5 2, field s 8 2, field s 11 2, field s 14 2, field s 17 2, field s 20 3 with
    | Some y, Some mo, Some d, Some h, Some mi, Some se, Some ms =>
        let t := mkUtc y mo d h mi se ms in
        if validUtc t then Some t else None
    | _, _, _, _, _, _, _ => None
    end
  else None.

#[export] Instance codecs : QtCodecs := {|
  QDateTime := option UtcTime;
  toStringISODateWithMs := utcToString;
  datetimeFromString := utcFromString;
  toBase64 := encode;
  fromBase64 := fun s => decode s 0 0;
  qhashItems := map_to_list;
  qhashItems_perm := fun m => reflexivity (map_to_list m)
|}.

End Reference.

(* ===================================================================== *)
(** * Vocabulary of the properties *)
(* ===================================================================== *)

Module Views.

(** No character of the text is white space. *)
Fixpoint spaceFree (s : string) : bool :=
  match s with
  | EmptyString => true
  | String c r => negb (Qt.isSpace c) && spaceFree r
  end.

(** A text that is present and not empty. *)
Definition nonEmpty (o : option string) : option string :=
  match o with
  | Some s => if Qt.isEmpty s then None else Some s
  | None => None
  end.

Definition attributeCall (a : string * string) : XmlCall := Attribute (fst a) (snd a).

(** The attribute of a text that is written only when it is not empty. *)
Definition optAttr (name value : string) : list (string * string) :=
  if Qt.isEmpty value then [] else [(name, value)].

(** The attribute of an optional field: none when the field is unset. *)
Definition optField (name : string) (o : option string) : list (string * string) :=
  match o with Some s => [(name, s)] | None => [] end.

(** The value that the calls [w] give to the attribute [name], if any. *)
Definition written (w : QXmlStreamWriter) (name : string) : option string :=
  lookupAttribute (writtenAttributes w) name.

(** The text node that [writeCharacters] leaves in an empty element. *)
Definition textNodes (s : string) : list (ElementNode + string) :=
  if Qt.isEmpty s then [] else [inr s].

(** Closing an element hands it to its parent, or to the document. *)
Definition attach (e : ElementNode) (r : Reader) : Reader :=
  match r_open r with
  | [] => mkReader [] (e :: r_closed r)
  | p :: k => mkReader (mkOpen (o_tag p) (o_ns p) (o_attrs p) (inl e :: o_nodes p) :: k) (r_closed r)
  end.

(** The default namespace in force for a new element. *)
Definition inheritedNs (r : Reader) : string :=
  match r_open r with
  | [] => ""
  | o :: _ => o_ns o
  end.

(** The calls for an element whose content is one run of characters. *)
Definition textElementCalls (t : string) (a : list (string * string)) (s : string) : list XmlCall :=
  StartElement t :: map attributeCall a ++ [Characters s; EndElement].

Section Service.
Context `{QtCodecs}.
Import ExternalService.

(** The attributes that [toXml] writes for a service, in order. *)
Definition serviceAttributes (d : QXmppExternalService) : list (string * string) :=
  [("host", host d); ("type", type d)]
  ++ optField "action" (actionToString <$> action d)
  ++ optField "expires" (toStringISODateWithMs <$> expires d)
  ++ optField "name" (name d)
  ++ optField "password" (password d)
  ++ optField "port" (Qt.number <$> port d)
  ++ optField "restricted" ((fun b : bool => if b then "true" else "false") <$> restricted d)
  ++ optField "transport" (transportToString <$> transport d)
  ++ optField "username" (username d).

(** The services that the codec carries faithfully: the timestamp, when
    set, is one that the timestamp codec reads back from its own text, and
    the port, when set, is an [int]. *)
Definition validService (d : QXmppExternalService) : Prop :=
  (forall t, expires d = Some t -> datetimeFromString (toStringISODateWithMs t) = t)
  /\ (forall p, port d = Some p -> Qt.INT_MIN <= p <= Qt.INT_MAX).

(** Two services agree in every field but the one read from the
    attribute called [n]. *)
Definition sameExcept (n : string) (x y : QXmppExternalService) : Prop :=
  (n <> "host" -> host x = host y)
  /\ (n <> "type" -> type x = type y)
  /\ (n <> "action" -> action x = action y)
  /\ (n <> "expires" -> expires x = expires y)
  /\ (n <> "name" -> name x = name y)
  /\ (n <> "password" -> password x = password y)
  /\ (n <> "port" -> port x = port y)
  /\ (n <> "restricted" -> restricted x = restricted y)
  /\ (n <> "transport" -> transport x = transport y)
  /\ (n <> "username" -> username x = username y).
End Service.

Section OmemoViews.

Definition deviceAttributes (d : DeviceElement.QXmppOmemoDeviceElement) : list (string * string) :=
  ("id", Qt.number (DeviceElement.m_id d)) :: optAttr "label" (DeviceElement.m_label d).

(** The element that [DeviceElement.toXml] emits where the default
    namespace is [u]. *)
Definition deviceElement (u : string) (d : DeviceElement.QXmppOmemoDeviceElement) : ElementNode :=
  Element "device" u (deviceAttributes d) [].

Definition deviceCalls (d : DeviceElement.QXmppOmemoDeviceElement) : list XmlCall :=
  StartElement "device" :: map attributeCall (deviceAttributes d) ++ [EndElement].

(** The IDs that [setId] documents, and the unset ID 0. *)
Definition validId (id : Z) : Prop := 0 <= id <= Qt.INT_MAX.

Context `{QtCodecs}.

Definition preKeyCalls (it : Z * list Byte.byte) : list XmlCall :=
  textElementCalls "pk" [("id", Qt.number (fst it))] (toBase64 (snd it)).

Definition preKeyElement (u : string) (it : Z * list Byte.byte) : ElementNode :=
  Element "pk" u [("id", Qt.number (fst it))] (textNodes (toBase64 (snd it))).

(** The element that [DeviceBundle.toXml] emits. *)
Definition bundleElement (b : DeviceBundle.QXmppOmemoDeviceBundle) : ElementNode :=
  Element "bundle" ns_omemo_2 []
    [ inl (Element "ik" ns_omemo_2 [] (textNodes (toBase64 (DeviceBundle.m_publicIdentityKey b))));
      inl (Element "spk" ns_omemo_2 [("id", Qt.number (DeviceBundle.m_signedPublicPreKeyId b))]
             (textNodes (toBase64 (DeviceBundle.m_signedPublicPreKey b))));
      inl (Element "spks" ns_omemo_2 [] (textNodes (toBase64 (DeviceBundle.m_signedPublicPreKeySignature b))));
      inl (Element "prekeys" ns_omemo_2 []
             (map (fun it => inl (preKeyElement ns_omemo_2 it)) (qhashItems (DeviceBundle.m_publicPreKeys b)))) ].

(** A key that base64 carries faithfully. *)
Definition validKey (key : list Byte.byte) : Prop := fromBase64 (toBase64 key) = key.

(** The bundles that the codec carries faithfully. *)
Definition validBundle (b : DeviceBundle.QXmppOmemoDeviceBundle) : Prop :=
  validId (DeviceBundle.m_signedPublicPreKeyId b)
  /\ validKey (DeviceBundle.m_publicIdentityKey b)
  /\ validKey (DeviceBundle.m_signedPublicPreKey b)
  /\ validKey (DeviceBundle.m_signedPublicPreKeySignature b)
  /\ map_Forall (fun id key => validId id /\ validKey key) (DeviceBundle.m_publicPreKeys b).

(** Two elements have the same first child called [n]. *)
Definition sameChild (n : string) (x y : QDomElement) : Prop :=
  Dom.firstChildElement x n = Dom.firstChildElement y n.
End OmemoViews.

End Views.

Import Views.

(** Editing an element, to build the inputs of [parse]. *)
Module Edit.

(** [QDomElement::setAttribute]: the value of the attribute called [name]
    becomes [value]; the attribute is added when there is none. *)
Fixpoint setIn (a : list (string * string)) (name value : string) : list (string * string) :=
  match a with
  | [] => [(name, value)]
  | (k, v) :: r => if String.eqb k name then (k, value) :: r else (k, v) :: setIn r name value
  end.

Definition setAttribute (e : ElementNode) (name value : string) : ElementNode :=
  match e with Element t u a c => Element t u (setIn a name value) c end.

(** [QDomElement::removeAttribute]. *)
Fixpoint removeIn (a : list (string * string)) (name : string) : list (string * string) :=
  match a with
  | [] => []
  | (k, v) :: r => if String.eqb k name then removeIn r name else (k, v) :: removeIn r name
  end.

Definition removeAttribute (e : ElementNode) (name : string) : ElementNode :=
  match e with Element t u a c => Element t u (removeIn a name) c end.

End Edit.

Import Edit.

(** Values and elements on which the properties are run. *)
Module Samples.
Import ExternalService.

(** <service host="turn.example.com" type="turn" port="3478" transport="udp"/> *)
Definition turnElement : ElementNode :=
  Element "service" ""
    [("host", "turn.example.com"); ("type", "turn"); ("port", "3478"); ("transport", "udp")] [].

Definition turnService : @QXmppExternalService Reference.codecs :=
  mkService "turn.example.com" "turn" None None None None (Some 3478) None (Some Udp) None.

(** A service with every field set. *)
Definition fullService : @QXmppExternalService Reference.codecs :=
  mkService "stun.example.com" "stun" (Some Modify)
            (Some (Some (Reference.mkUtc 2023 1 31 9 5 0 7) : @QDateTime Reference.codecs))
            (Some "relay") (Some "secret") (Some 3478) (Some false) (Some Tcp) (Some "alice").

(** The turn service with its name set to the empty text. *)
Definition unnamedService : @QXmppExternalService Reference.codecs :=
  setName turnService (Some "").

(** A service element in which four attributes cannot be read. *)
Definition damagedElement : ElementNode :=
  Element "service" ""
    [("host", "turn.example.com"); ("type", "turn"); ("action", "remove");
     ("expires", "tomorrow"); ("port", "34x8"); ("transport", "sctp"); ("username", "alice")] [].

Definition phone : DeviceElement.QXmppOmemoDeviceElement := DeviceElement.mkDevice 12345 "Phone".
Definition laptop : DeviceElement.QXmppOmemoDeviceElement := DeviceElement.mkDevice 4223 "".

Definition key1 : list Byte.byte := [Byte.x4d; Byte.x61; Byte.x6e].
Definition key2 : list Byte.byte := [Byte.x00; Byte.xff].

Definition sampleBundle : DeviceBundle.QXmppOmemoDeviceBundle :=
  DeviceBundle.mkBundle key1 key2 7 [Byte.x10] (<[1 := key1]> (<[2 := key2]> ∅)).

(** A bundle element whose identity key is not base64 and that has no
    signed pre-key. *)
Definition damagedBundle : ElementNode :=
  Element "bundle" ns_omemo_2 []
    [ inl (Element "ik" ns_omemo_2 [] [inr "!!"]);
      inl (Element "spks" ns_omemo_2 [] [inr "TWFu"]);
      inl (Element "prekeys" ns_omemo_2 []
             [inl (Element "pk" ns_omemo_2 [("id", "1")] [inr "TWFu"])]) ].

(** A bundle element whose identity key has a character outside the
    base64 alphabet. *)
Definition damagedKeyBundle : ElementNode :=
  Element "bundle" ns_omemo_2 []
    [ inl (Element "ik" ns_omemo_2 [] [inr "TW!Fu"]);
      inl (Element "spk" ns_omemo_2 [("id", "7")] [inr "AP8="]);
      inl (Element "spks" ns_omemo_2 [] [inr "TWFu"]);
      inl (Element "prekeys" ns_omemo_2 [] []) ].

(** A recogniser for the encrypted payload: the tag "encrypted" in the
    OMEMO namespace. *)
Definition isEncrypted (element : QDomElement) : bool :=
  String.eqb (Dom.tagName element) "encrypted"
  && String.eqb (Dom.namespaceURI element) ns_omemo_2.

(** An IQ with two children, the first of which is the encrypted payload. *)
Definition twoChildren : ElementNode :=
  Element "iq" "jabber:client" [("type", "set")]
    [ inl (Element "encrypted" ns_omemo_2 [] []);
      inl (Element "extra" "" [] []) ].

(** A device list with a child called "device" in a foreign namespace. *)
Definition foreignDevices : ElementNode :=
  Element "devices" ns_omemo_2 []
    [ inl (Element "device" ns_omemo_2 [("id", "1")] []);
      inl (Element "device" "urn:example:other" [("id", "2")] []) ].

(** An IQ whose services container mixes services, a text node and
    children that are not services. *)
Definition mixedServices : ElementNode :=
  Element "iq" "jabber:client" []
    [ inl (Element "services" ns_external_service_discovery []
        [ inl (Element "service" ns_external_service_discovery
                 [("host", "a.example.com"); ("type", "stun")] []);
          inl (Element "service" ns_external_service_discovery [("host", "b.example.com")] []);
          inr " ";
          inl (Element "other" ns_external_service_discovery
                 [("host", "c.example.com"); ("type", "turn")] []);
          inl (Element "service" ns_external_service_discovery
                 [("host", "d.example.com"); ("type", "turn"); ("port", "3478")] []) ]) ].
End Samples.

(* ===================================================================== *)
(** * The elements of the list-shaped payloads *)
(* ===================================================================== *)

(** The elements that the list-shaped payloads emit, and their parts. *)
Module Trees.

Section Services.
Context `{QtCodecs}.

Definition serviceCalls (d : ExternalService.QXmppExternalService) : list XmlCall :=
  StartElement "service" :: map attributeCall (serviceAttributes d) ++ [EndElement].

(** The element that [ExternalService.toXml] emits where the default
    namespace is [u]. *)
Definition serviceElement (u : string) (d : ExternalService.QXmppExternalService) : ElementNode :=
  Element "service" u (serviceAttributes d) [].

(** The element that [toXmlElementFromChild] emits. *)
Definition servicesElement (iq : ExternalService.QXmppExternalServiceDiscoveryIq) : ElementNode :=
  Element "services" ns_external_service_discovery []
    (map (fun d => inl (serviceElement ns_external_service_discovery d))
         (ExternalService.externalServices iq)).

(** A service whose host and type are both not empty. *)
Definition hasHostAndType (d : ExternalService.QXmppExternalService) : bool :=
  negb (Qt.isEmpty (ExternalService.host d)) && negb (Qt.isEmpty (ExternalService.type d)).

(** What comes back when a service is written and parsed into a new
    object. *)
Definition reparsed (d : ExternalService.QXmppExternalService)
  : ExternalService.QXmppExternalService :=
  ExternalService.parse ExternalService.newService (emitted (ExternalService.toXml d [])).
End Services.


(** The element that [DeviceList.toXml] emits. *)
Definition deviceListElement (l : DeviceList.QXmppOmemoDeviceList) : ElementNode :=
  Element "devices" ns_omemo_2 [] (map (fun d => inl (deviceElement ns_omemo_2 d)) l).

(** The ID that [DeviceBundle.parse] reads from a pk element. *)
Definition preKeyId (pk : ElementNode) : Z :=
  Qt.to_uint32 (Qt.toInt (Dom.attribute (Some pk) "id")).

(** The pk elements inside the prekeys container of an element. *)
Definition preKeyElements (element : QDomElement) : list ElementNode :=
  Dom.childElementsNamed (Dom.firstChildElement element "prekeys") "pk".

(** The pk element that decides the pre-key [id] among [pks]: the last one
    that carries this ID. *)
Definition decidingPreKey (id : Z) (pks : list ElementNode) : option ElementNode :=
  List.find (fun pk => preKeyId pk =? id) (rev pks).

(** What one call adds to the nesting depth. *)
Definition nesting (c : XmlCall) : Z :=
  match c with
  | StartElement _ => 1
  | EndElement => -1
  | _ => 0
  end.

(** The nesting depth that a sequence of calls leaves: the elements it
    opens less the elements it closes. *)
Definition depth (w : QXmlStreamWriter) : Z :=
  foldr (fun c n => nesting c + n) 0 w.

End Trees.

Import Trees.

(** More values and elements on which the properties are run. *)
Module MoreSamples.

(** An IQ element around a payload element. *)
Definition iqAround (payload : QDomElement) : QDomElement :=
  match payload with
  | Some c => Some (Element "iq" "jabber:client" [("type", "result")] [inl c])
  | None => Some (Element "iq" "jabber:client" [("type", "result")] [])
  end.

Definition twoServices : @ExternalService.QXmppExternalServiceDiscoveryIq Reference.codecs :=
  ExternalService.mkIq [Samples.fullService; Samples.turnService].

(** An IQ that holds a newly constructed service between two others. *)
Definition threeServices : @ExternalService.QXmppExternalServiceDiscoveryIq Reference.codecs :=
  ExternalService.mkIq [Samples.fullService; ExternalService.newService; Samples.turnService].

(** A bundle element in which the pre-key ID 1 occurs twice. *)
Definition repeatedPreKey : ElementNode :=
  Element "bundle" ns_omemo_2 []
    [ inl (Element "prekeys" ns_omemo_2 []
             [ inl (Element "pk" ns_omemo_2 [("id", "1")] [inr "TWFu"]);
               inl (Element "pk" ns_omemo_2 [("id", "2")] [inr "AP8="]);
               inl (Element "pk" ns_omemo_2 [("id", "1")] [inr "AP8="]) ]) ].


End MoreSamples.

(* ===================================================================== *)
(** * Properties *)
(* ===================================================================== *)

(** ** The code on small inputs *)

Example number_zero : Qt.number 0 = "0".
Proof. reflexivity. Qed.
Example number_negative : Qt.number (-120) = "-120".
Proof. reflexivity. Qed.
Example toInt_3478 : Qt.toInt " 3478 " = 3478.
Proof. reflexivity. Qed.
Example toInt_junk : Qt.toInt "34x8" = 0.
Proof. reflexivity. Qed.
Example toInt_empty : Qt.toInt "" = 0.
Proof. reflexivity. Qed.
Example toInt_big : Qt.toInt "2147483648" = 0 /\ Qt.toInt "2147483647" = 2147483647 /\ Qt.toInt "-2147483648" = -2147483648.
Proof. repeat split; reflexivity. Qed.
Example toInt_sign : Qt.toInt "+" = 0 /\ Qt.toInt "-" = 0 /\ Qt.toInt "+7" = 7 /\ Qt.toInt "007" = 7.
Proof. repeat split; reflexivity. Qed.
Example b64_1 : Reference.encode [Byte.x4d; Byte.x61; Byte.x6e] = "TWFu".
Proof. reflexivity. Qed.
Example b64_2 : Reference.encode [Byte.x4d; Byte.x61] = "TWE=".
Proof. reflexivity. Qed.
Example b64_3 : Reference.encode [Byte.x4d] = "TQ==".
Proof. reflexivity. Qed.
Example b64_4 : Reference.decode "TWE=" 0 0 = [Byte.x4d; Byte.x61].
Proof. reflexivity. Qed.
Example b64_5 : Reference.decode "TQ==" 0 0 = [Byte.x4d] /\ Reference.decode "TWFu" 0 0 = [Byte.x4d; Byte.x61; Byte.x6e]
  /\ Reference.decode "!!" 0 0 = [].
Proof. repeat split; reflexivity. Qed.
Example utc_1 : Reference.utcToString (Some (Reference.mkUtc 2023 1 31 9 5 0 7)) = "2023-01-31T09:05:00.007Z".
Proof. reflexivity. Qed.
Example utc_2 : Reference.utcFromString "2023-01-31T09:05:00.007Z" = Some (Reference.mkUtc 2023 1 31 9 5 0 7).
Proof. reflexivity. Qed.
Example utc_3 : Reference.utcFromString "yesterday" = None /\ Reference.utcFromString "2023-02-30T09:05:00.007Z" = None.
Proof. split; reflexivity. Qed.

(** ** Numbers and their decimal text *)

Section Numbers.
Import Qt.

Lemma dropTrailingSpace_spaceFree s : spaceFree s = true -> dropTrailingSpace s = s.
Proof.
  induction s as [|c r IH]; simpl; [done|].
  intros [Hc Hr]%andb_prop. rewrite (IH Hr).
  apply negb_true_iff in Hc. by rewrite Hc.
Qed.

Lemma skipLeadingSpace_spaceFree s : spaceFree s = true -> skipLeadingSpace s = s.
Proof.
  destruct s as [|c r]; simpl; [done|].
  intros [Hc _]%andb_prop. apply negb_true_iff in Hc. by rewrite Hc.
Qed.

Lemma trimmed_spaceFree s : spaceFree s = true -> trimmed s = s.
Proof.
  intros Hs. unfold trimmed.
  rewrite (skipLeadingSpace_spaceFree _ Hs). by apply dropTrailingSpace_spaceFree.
Qed.

Lemma digits_spaceFree d : spaceFree (NilEmpty.string_of_uint d) = true.
Proof. induction d; simpl; auto. Qed.

Lemma digits_nonempty d : d <> Nil -> isEmpty (NilEmpty.string_of_uint d) = false.
Proof. destruct d; simpl; congruence. Qed.

Lemma digitsToZ_digits d :
  d <> Nil -> digitsToZ (NilEmpty.string_of_uint d) = Some (Z.of_uint d).
Proof.
  intros Hd. unfold digitsToZ. rewrite (digits_nonempty _ Hd).
  pose proof (NilZero.usu d Hd) as Hu.
  unfold NilZero.string_of_uint in Hu.
  destruct d; try congruence; by rewrite Hu.
Qed.

(** The text of a positive number starts with a digit, not with a sign. *)
Lemma signedToZ_digits d :
  d <> Nil -> signedToZ (NilEmpty.string_of_uint d) = Some (Z.of_uint d).
Proof.
  intros Hd. rewrite <- (digitsToZ_digits d Hd).
  destruct d; try congruence; reflexivity.
Qed.

Lemma number_pos p : number (Z.pos p) = NilEmpty.string_of_uint (Pos.to_uint p).
Proof.
  unfold number; simpl. unfold NilZero.string_of_uint.
  pose proof (Unsigned.to_uint_nonnil p). by destruct (Pos.to_uint p).
Qed.

Lemma number_neg p : number (Z.neg p) = String "-" (NilEmpty.string_of_uint (Pos.to_uint p)).
Proof.
  unfold number; simpl. unfold NilZero.string_of_uint.
  pose proof (Unsigned.to_uint_nonnil p). by destruct (Pos.to_uint p).
Qed.

Lemma of_uint_to_uint p : Z.of_uint (Pos.to_uint p) = Z.pos p.
Proof. unfold Z.of_uint. by rewrite Unsigned.of_to. Qed.

Lemma number_spaceFree z : spaceFree (number z) = true.
Proof.
  destruct z as [|p|p]; [done| |].
  - rewrite number_pos. apply digits_spaceFree.
  - rewrite number_neg. simpl. apply digits_spaceFree.
Qed.

Lemma number_nonempty z : isEmpty (number z) = false.
Proof.
  destruct z as [|p|p]; [done| |].
  - rewrite number_pos. apply digits_nonempty, Unsigned.to_uint_nonnil.
  - by rewrite number_neg.
Qed.

Lemma signedToZ_number z : signedToZ (number z) = Some z.
Proof.
  destruct z as [|p|p]; [done| |].
  - rewrite number_pos, signedToZ_digits by apply Unsigned.to_uint_nonnil.
    by rewrite of_uint_to_uint.
  - rewrite number_neg. simpl.
    rewrite digitsToZ_digits by apply Unsigned.to_uint_nonnil.
    by rewrite of_uint_to_uint.
Qed.

(** [toInt] reads back every [int] that [number] has written. *)
Lemma toInt_number z : INT_MIN <= z <= INT_MAX -> toInt (number z) = z.
Proof.
  intros Hz. unfold toInt.
  rewrite trimmed_spaceFree by apply number_spaceFree.
  rewrite signedToZ_number.
  destruct (Z.leb_spec INT_MIN z), (Z.leb_spec z INT_MAX); simpl; lia.
Qed.

(** A [uint] above the range of [int] is written, but not read back. *)
Lemma toInt_number_overflow z : INT_MAX < z -> toInt (number z) = 0.
Proof.
  intros Hz. unfold toInt.
  rewrite trimmed_spaceFree by apply number_spaceFree.
  rewrite signedToZ_number.
  destruct (Z.leb_spec INT_MIN z), (Z.leb_spec z INT_MAX); simpl; lia.
Qed.

Lemma to_uint32_small z : 0 <= z <= INT_MAX -> to_uint32 z = z.
Proof.
  intros Hz. unfold to_uint32. apply Z.mod_small.
  unfold INT_MAX in Hz. lia.
Qed.

Lemma isEmpty_false s : isEmpty s = false <-> s <> "".
Proof. destruct s; simpl; split; congruence. Qed.
End Numbers.

(** ** Reading back what was written *)

Section Reading.

Lemma read_start n w r :
  readCalls (StartElement n :: w) r
  = readCalls w (mkReader (mkOpen n (inheritedNs r) [] [] :: r_open r) (r_closed r)).
Proof. destruct r as [[|o k] c]; reflexivity. Qed.

Lemma read_attributes a w t u a0 n0 k c :
  readCalls (map attributeCall a ++ w) (mkReader (mkOpen t u a0 n0 :: k) c)
  = readCalls w (mkReader (mkOpen t u (a0 ++ a) n0 :: k) c).
Proof.
  revert a0; induction a as [|[x v] a IH]; intros a0; simpl.
  - by rewrite app_nil_r.
  - rewrite IH. by rewrite <- app_assoc.
Qed.

Lemma read_end w t u a n k c :
  readCalls (EndElement :: w) (mkReader (mkOpen t u a n :: k) c)
  = readCalls w (attach (Element t u a (rev n)) (mkReader k c)).
Proof. destruct k as [|p k]; reflexivity. Qed.

(** An element without content: a start tag, attributes, an end tag. *)
Lemma read_empty_element t a w r :
  readCalls (StartElement t :: map attributeCall a ++ EndElement :: w) r
  = readCalls w (attach (Element t (inheritedNs r) a []) r).
Proof.
  rewrite read_start, read_attributes, read_end. simpl.
  by destruct r.
Qed.

(** An element whose content is one run of characters. *)
Lemma read_text_element t a s w r :
  readCalls (StartElement t :: map attributeCall a ++ Characters s :: EndElement :: w) r
  = readCalls w (attach (Element t (inheritedNs r) a (textNodes s)) r).
Proof.
  rewrite read_start, read_attributes.
  change (readCalls (Characters s :: EndElement :: w) ?x)
    with (readCalls (EndElement :: w)
            (mkReader (mkOpen t (inheritedNs r) ([] ++ a) (addText s []) :: r_open r) (r_closed r))).
  rewrite read_end. unfold addText, textNodes.
  destruct (Qt.isEmpty s), r; reflexivity.
Qed.

End Reading.

(** ** The external service: calls, attributes, round trip *)

Section ServiceCalls.
Context `{QtCodecs}.
Import ExternalService.

Lemma writeOptional_calls w n v :
  Utils.writeOptionalXmlAttribute w n v = w ++ map attributeCall [(n, v)].
Proof. reflexivity. Qed.

Lemma writeOptionalField_calls {A} w n (f : A -> string) (o : option A) :
  match o with
  | Some x => Utils.writeOptionalXmlAttribute w n (f x)
  | None => w
  end = w ++ map attributeCall (optField n (f <$> o)).
Proof.
  destruct o; simpl; [apply writeOptional_calls | by rewrite app_nil_r].
Qed.

(** The calls of [toXml]: one start tag, the attributes, one end tag. *)
Lemma toXml_calls d w :
  toXml d w = w ++ StartElement "service" :: map attributeCall (serviceAttributes d) ++ [EndElement].
Proof.
  unfold toXml, serviceAttributes, writeEndElement, writeStartElement.
  rewrite (writeOptionalField_calls _ "username" id).
  rewrite (writeOptionalField_calls _ "transport" transportToString).
  rewrite (writeOptionalField_calls _ "restricted" (fun b : bool => if b then "true" else "false")).
  rewrite (writeOptionalField_calls _ "port" Qt.number).
  rewrite (writeOptionalField_calls _ "password" id).
  rewrite (writeOptionalField_calls _ "name" id).
  rewrite (writeOptionalField_calls _ "expires" toStringISODateWithMs).
  rewrite (writeOptionalField_calls _ "action" actionToString).
  rewrite !writeOptional_calls.
  rewrite !option_fmap_id.
  rewrite !map_app. rewrite <- !app_assoc. reflexivity.
Qed.

Lemma toXml_emitted d :
  emitted (toXml d []) = Some (Element "service" "" (serviceAttributes d) []).
Proof.
  rewrite toXml_calls, app_nil_l. unfold emitted.
  by rewrite read_empty_element.
Qed.
End ServiceCalls.

Section Lookup.
Lemma lookup_app l1 l2 n :
  lookupAttribute (l1 ++ l2) n
  = match lookupAttribute l1 n with
    | Some v => Some v
    | None => lookupAttribute l2 n
    end.
Proof.
  induction l1 as [|[k v] l1 IH]; simpl; [done|].
  by destruct (String.eqb k n).
Qed.

Lemma lookup_optAttr k v n :
  lookupAttribute (optAttr k v) n = if String.eqb k n then nonEmpty (Some v) else None.
Proof.
  unfold optAttr; simpl. destruct (Qt.isEmpty v); simpl; by destruct (String.eqb k n).
Qed.

Lemma lookup_optField k o n :
  lookupAttribute (optField k o) n = if String.eqb k n then o else None.
Proof. destruct o; simpl; by destruct (String.eqb k n). Qed.
End Lookup.

Ltac lookup_attributes :=
  repeat first [ rewrite lookup_app | rewrite lookup_optAttr | rewrite lookup_optField ];
  cbn [String.eqb Ascii.eqb Bool.eqb].

Section ServiceRoundTrip.
Context `{QtCodecs}.
Import ExternalService.

(** What [parse] leaves in each field, attribute by attribute. *)
Lemma parse_fields this el :
  parse this el =
  let a := Dom.attributes el in
  mkService
    (default "" (lookupAttribute a "host"))
    (default "" (lookupAttribute a "type"))
    (actionFromString (default "" (lookupAttribute a "action")))
    (match lookupAttribute a "expires" with
     | Some v => Some (datetimeFromString v) | None => expires this end)
    (match lookupAttribute a "name" with
     | Some v => Some v | None => name this end)
    (match lookupAttribute a "password" with
     | Some v => Some v | None => password this end)
    (match lookupAttribute a "port" with
     | Some v => Some (Qt.toInt v) | None => port this end)
    (match lookupAttribute a "restricted" with
     | Some v => Some (String.eqb v "true" || String.eqb v "1") | None => restricted this end)
    (transportFromString (default "" (lookupAttribute a "transport")))
    (match lookupAttribute a "username" with
     | Some v => Some v | None => username this end).
Proof.
  unfold parse, Dom.contains, Dom.attribute. cbv zeta.
  destruct (lookupAttribute (attributes el) "expires"),
           (lookupAttribute (attributes el) "name"),
           (lookupAttribute (attributes el) "password"),
           (lookupAttribute (attributes el) "port"),
           (lookupAttribute (attributes el) "restricted"),
           (lookupAttribute (attributes el) "username");
    reflexivity.
Qed.

Lemma service_lookups d :
  let a := serviceAttributes d in
  lookupAttribute a "host" = Some (host d)
  /\ lookupAttribute a "type" = Some (type d)
  /\ lookupAttribute a "action" = (actionToString <$> action d)
  /\ lookupAttribute a "expires" = (toStringISODateWithMs <$> expires d)
  /\ lookupAttribute a "name" = name d
  /\ lookupAttribute a "password" = password d
  /\ lookupAttribute a "port" = (Qt.number <$> port d)
  /\ lookupAttribute a "restricted"
     = ((fun b : bool => if b then "true" else "false") <$> restricted d)
  /\ lookupAttribute a "transport" = (transportToString <$> transport d)
  /\ lookupAttribute a "username" = username d.
Proof.
  cbv zeta. unfold serviceAttributes.
  repeat split; lookup_attributes;
    cbn [lookupAttribute String.eqb Ascii.eqb Bool.eqb];
    repeat match goal with |- context [match ?o with Some _ => _ | None => _ end] =>
      destruct o end; reflexivity.
Qed.

Lemma service_round_trip d :
  validService d -> parse newService (emitted (toXml d [])) = d.
Proof.
  intros (He & Hport).
  rewrite toXml_emitted, parse_fields. cbv zeta. simpl attributes.
  destruct (service_lookups d) as (-> & -> & -> & -> & -> & -> & -> & -> & -> & ->).
  destruct d as [h t a e n p po r tr u]; simpl in *.
  f_equal.
  - destruct a as [[]|]; reflexivity.
  - destruct e as [t0|]; simpl; [|done]. by rewrite (He t0 eq_refl).
  - by destruct n.
  - by destruct p.
  - destruct po as [z|]; simpl; [|done]. by rewrite toInt_number by auto.
  - destruct r as [[]|]; reflexivity.
  - destruct tr as [[]|]; reflexivity.
  - by destruct u.
Qed.
End ServiceRoundTrip.

(** ** Loops over children and entries *)

Section Loops.
Context {A B : Type}.

(** A loop that appends one entry per item. *)
Lemma foldl_append (f : A -> B) (acc : list B) (l : list A) :
  foldl (fun acc x => acc ++ [f x]) acc l = acc ++ map f l.
Proof.
  revert acc; induction l as [|x l IH]; intros acc; simpl.
  - by rewrite app_nil_r.
  - rewrite IH. by rewrite <- app_assoc.
Qed.

(** A loop in which every item writes its own calls. *)
Lemma foldl_calls (g : A -> list XmlCall) (step : A -> QXmlStreamWriter -> QXmlStreamWriter)
      (w : QXmlStreamWriter) (l : list A) :
  (forall x w, step x w = w ++ g x) ->
  foldl (fun w x => step x w) w l = w ++ concat (map g l).
Proof.
  intros Hstep. revert w; induction l as [|x l IH]; intros w; simpl.
  - by rewrite app_nil_r.
  - rewrite IH, Hstep. by rewrite <- app_assoc.
Qed.

Lemma filter_all (p : A -> bool) (l : list A) :
  Forall (fun x => p x = true) l -> List.filter p l = l.
Proof.
  induction 1 as [|x l Hx _ IH]; simpl; [done|]. by rewrite Hx, IH.
Qed.

Lemma omap_inl (l : list A) :
  omap (fun n : A + B => match n with inl c => Some c | inr _ => None end) (map inl l) = l.
Proof. induction l as [|x l IH]; [done|]. cbn. by f_equal. Qed.
End Loops.

(** ** Device elements and device lists *)

Section DeviceCalls.

Lemma deviceToXml_calls d w : DeviceElement.toXml d w = w ++ deviceCalls d.
Proof.
  unfold DeviceElement.toXml, deviceCalls, deviceAttributes, optAttr.
  unfold writeEndElement, writeAttribute, writeStartElement.
  destruct (Qt.isEmpty (DeviceElement.m_label d)); simpl; by rewrite <- !app_assoc.
Qed.

Lemma deviceToXml_emitted d : emitted (DeviceElement.toXml d []) = Some (deviceElement "" d).
Proof.
  rewrite deviceToXml_calls, app_nil_l. unfold emitted, deviceCalls.
  by rewrite read_empty_element.
Qed.

Lemma read_devices l w t u a n k c :
  readCalls (concat (map deviceCalls l) ++ w) (mkReader (mkOpen t u a n :: k) c)
  = readCalls w (mkReader (mkOpen t u a (rev (map (fun d => inl (deviceElement u d)) l) ++ n) :: k) c).
Proof.
  revert n; induction l as [|d l IH]; intros n; [done|].
  change (concat (map deviceCalls (d :: l)))
    with (deviceCalls d ++ concat (map deviceCalls l)).
  unfold deviceCalls at 1. rewrite <- !app_assoc, <- !app_comm_cons, <- !app_assoc.
  change ([EndElement] ++ ?x) with (EndElement :: x).
  rewrite read_empty_element.
  unfold attach, inheritedNs. simpl. rewrite IH.
  by rewrite <- app_assoc.
Qed.

Lemma deviceListToXml_calls l w :
  DeviceList.toXml l w
  = w ++ StartElement "devices" :: DefaultNamespace ns_omemo_2
         :: concat (map deviceCalls l) ++ [EndElement].
Proof.
  unfold DeviceList.toXml, writeEndElement, writeDefaultNamespace, writeStartElement.
  rewrite (foldl_calls deviceCalls DeviceElement.toXml) by apply deviceToXml_calls.
  by rewrite <- !app_assoc.
Qed.

Lemma deviceListToXml_emitted l :
  emitted (DeviceList.toXml l [])
  = Some (Element "devices" ns_omemo_2 [] (map (fun d => inl (deviceElement ns_omemo_2 d)) l)).
Proof.
  rewrite deviceListToXml_calls, app_nil_l. unfold emitted.
  rewrite read_start.
  change (readCalls (DefaultNamespace ns_omemo_2 :: ?w) ?r)
    with (readCalls w (mkReader [mkOpen "devices" ns_omemo_2 [] []] [])).
  rewrite read_devices, read_end, app_nil_r, rev_involutive. reflexivity.
Qed.

Lemma parseDevice_fields this el :
  DeviceElement.parse this el
  = DeviceElement.mkDevice (Qt.to_uint32 (Qt.toInt (Dom.attribute el "id"))) (Dom.attribute el "label").
Proof. reflexivity. Qed.

Lemma device_element_round_trip u d :
  0 <= DeviceElement.m_id d <= Qt.INT_MAX -> DeviceElement.parse DeviceElement.newDevice (Some (deviceElement u d)) = d.
Proof.
  intros Hid. rewrite parseDevice_fields. destruct d as [i l]; simpl in *.
  unfold attribute, deviceElement, deviceAttributes; simpl.
  rewrite toInt_number by (unfold Qt.INT_MIN; lia).
  rewrite to_uint32_small by done.
  f_equal. unfold optAttr. by destruct l.
Qed.

(** An ID above INT32_MAX is written in full and read back as 0. *)
Remark device_id_above_int_max d :
  Qt.INT_MAX < DeviceElement.m_id d ->
  DeviceElement.m_id (DeviceElement.parse DeviceElement.newDevice (emitted (DeviceElement.toXml d [])))
  = 0.
Proof.
  intros Hid. rewrite deviceToXml_emitted, parseDevice_fields.
  unfold attribute, deviceElement, deviceAttributes.
  cbn [attributes lookupAttribute String.eqb Ascii.eqb Bool.eqb DeviceElement.m_id].
  by rewrite toInt_number_overflow.
Qed.

Lemma device_round_trip d :
  0 <= DeviceElement.m_id d <= Qt.INT_MAX -> DeviceElement.parse DeviceElement.newDevice (emitted (DeviceElement.toXml d [])) = d.
Proof. intros Hid. rewrite deviceToXml_emitted. by apply device_element_round_trip. Qed.

(** What [parseDeviceList] appends: one entry for each child element
    called "device". *)
Lemma parseDeviceList_entries this el :
  DeviceList.parse this el
  = this ++ map (fun c => DeviceElement.parse DeviceElement.newDevice (Some c))
                (List.filter (fun c => String.eqb (Dom.tagName (Some c)) "device")
                             (Dom.childElements el)).
Proof.
  unfold DeviceList.parse. rewrite foldl_append. do 2 f_equal.
  unfold Utils.iterChildElements. apply List.filter_ext. intros c.
  unfold Utils.matches. simpl Qt.isEmpty. by rewrite andb_true_r.
Qed.

Lemma device_list_round_trip l :
  Forall (fun d => 0 <= DeviceElement.m_id d <= Qt.INT_MAX) l ->
  DeviceList.parse [] (emitted (DeviceList.toXml l [])) = l.
Proof.
  intros Hl. rewrite deviceListToXml_emitted, parseDeviceList_entries. simpl app.
  unfold childElements. simpl childNodes.
  rewrite <- (map_map (deviceElement ns_omemo_2) inl), omap_inl.
  rewrite filter_all by (apply Forall_map, Forall_true; done).
  rewrite map_map.
  induction Hl as [|d l Hd _ IH]; simpl; [done|].
  by rewrite device_element_round_trip, IH.
Qed.
End DeviceCalls.

(** ** Bundles *)

Section BundleCalls.
Context `{QtCodecs}.

Lemma read_text_only t s w r :
  readCalls (StartElement t :: Characters s :: EndElement :: w) r
  = readCalls w (attach (Element t (inheritedNs r) [] (textNodes s)) r).
Proof. exact (read_text_element t [] s w r). Qed.

Lemma read_preKeys l w t u a n k c :
  readCalls (concat (map preKeyCalls l) ++ w) (mkReader (mkOpen t u a n :: k) c)
  = readCalls w (mkReader (mkOpen t u a (rev (map (fun it => inl (preKeyElement u it)) l) ++ n) :: k) c).
Proof.
  revert n; induction l as [|d l IH]; intros n; [done|].
  change (concat (map preKeyCalls (d :: l)))
    with (preKeyCalls d ++ concat (map preKeyCalls l)).
  unfold preKeyCalls at 1, textElementCalls.
  repeat first [ rewrite <- app_comm_cons | rewrite <- app_assoc | rewrite app_nil_l ].
  rewrite read_text_element.
  unfold attach, inheritedNs. simpl. rewrite IH.
  by rewrite <- app_assoc.
Qed.

Lemma bundleToXml_calls b w :
  DeviceBundle.toXml b w
  = w ++ StartElement "bundle" :: DefaultNamespace ns_omemo_2
      :: textElementCalls "ik" [] (toBase64 (DeviceBundle.m_publicIdentityKey b))
      ++ textElementCalls "spk" [("id", Qt.number (DeviceBundle.m_signedPublicPreKeyId b))]
                          (toBase64 (DeviceBundle.m_signedPublicPreKey b))
      ++ textElementCalls "spks" [] (toBase64 (DeviceBundle.m_signedPublicPreKeySignature b))
      ++ StartElement "prekeys" :: concat (map preKeyCalls (qhashItems (DeviceBundle.m_publicPreKeys b)))
      ++ [EndElement; EndElement].
Proof.
  unfold DeviceBundle.toXml.
  unfold writeEndElement, writeDefaultNamespace, writeStartElement, writeCharacters, writeAttribute.
  rewrite (foldl_calls preKeyCalls
             (fun it w => (((w ++ [StartElement "pk"]) ++ [Attribute "id" (Qt.number (fst it))])
                           ++ [Characters (toBase64 (snd it))]) ++ [EndElement])).
  - unfold textElementCalls. simpl map. rewrite <- !app_assoc. reflexivity.
  - intros x w0. unfold preKeyCalls, textElementCalls. simpl map.
    by rewrite <- !app_assoc.
Qed.

Lemma bundleToXml_emitted b : emitted (DeviceBundle.toXml b []) = Some (bundleElement b).
Proof.
  rewrite bundleToXml_calls, app_nil_l. unfold emitted.
  rewrite read_start.
  change (readCalls (DefaultNamespace ns_omemo_2 :: ?w) ?r)
    with (readCalls w (mkReader [mkOpen "bundle" ns_omemo_2 [] []] [])).
  unfold textElementCalls.
  repeat first [ rewrite <- app_comm_cons | rewrite <- app_assoc | rewrite app_nil_l ].
  rewrite read_text_only; cbn [attach inheritedNs r_open r_closed o_tag o_ns o_attrs o_nodes].
  rewrite read_text_element; cbn [attach inheritedNs r_open r_closed o_tag o_ns o_attrs o_nodes].
  rewrite read_text_only; cbn [attach inheritedNs r_open r_closed o_tag o_ns o_attrs o_nodes].
  rewrite read_start; cbn [attach inheritedNs r_open r_closed o_tag o_ns o_attrs o_nodes].
  rewrite read_preKeys, read_end; cbn [attach inheritedNs r_open r_closed o_tag o_ns o_attrs o_nodes].
  rewrite read_end; cbn [attach inheritedNs r_open r_closed o_tag o_ns o_attrs o_nodes].
  rewrite app_nil_r, rev_involutive.
  reflexivity.
Qed.

Lemma append_empty s : (s ++ "")%string = s.
Proof.
  induction s as [|c s IH]; [done|].
  change (String c (s ++ "")%string = String c s). by f_equal.
Qed.

Lemma nodeText_textNodes t u a s : nodeText (Element t u a (textNodes s)) = s.
Proof.
  unfold textNodes. destruct s as [|c s]; simpl; [done|].
  by rewrite append_empty.
Qed.

Lemma preKey_children u (l : list (Z * list Byte.byte)) t a :
  Dom.childElementsNamed
    (Some (Element t u a (map (fun it => inl (preKeyElement u it)) l))) "pk"
  = map (preKeyElement u) l.
Proof.
  unfold childElementsNamed, childElements. simpl childNodes.
  rewrite <- (map_map (preKeyElement u) inl), omap_inl.
  apply filter_all, Forall_map, Forall_true. done.
Qed.

(** Inserting the entries of a hash one by one, in any order, gives the
    hash back. *)
Lemma foldl_insert_rev (l : list (Z * list Byte.byte)) (acc : gmap Z (list Byte.byte)) :
  foldl (fun acc it => <[fst it := snd it]> acc) acc l
  = foldr (fun it acc => <[fst it := snd it]> acc) acc (rev l).
Proof.
  revert acc; induction l as [|x l IH]; intros acc; simpl; [done|].
  by rewrite IH, foldr_app.
Qed.

Lemma foldr_insert_list_to_map (l : list (Z * list Byte.byte)) :
  foldr (fun it acc => <[fst it := snd it]> acc) (∅ : gmap Z (list Byte.byte)) l
  = list_to_map l.
Proof. induction l as [|[k v] l IH]; simpl; [done|]. by rewrite IH. Qed.

Lemma foldl_insert_items (m : gmap Z (list Byte.byte)) l :
  l ≡ₚ map_to_list m ->
  foldl (fun acc it => <[fst it := snd it]> acc) ∅ l = m.
Proof.
  intros Hl.
  rewrite foldl_insert_rev, foldr_insert_list_to_map.
  transitivity (list_to_map (map_to_list m) : gmap Z (list Byte.byte));
    [|apply list_to_map_to_list].
  apply list_to_map_proper.
  - rewrite <- Permutation_rev, Hl. apply NoDup_fst_map_to_list.
  - by rewrite <- Permutation_rev.
Qed.
End BundleCalls.

Section BundleRoundTrip.
Context `{QtCodecs}.

(** The loop over the pre-keys touches the hash alone. *)
Lemma foldl_addPublicPreKey {A} (id : A -> Z) (key : A -> list Byte.byte) (l : list A) b :
  foldl (fun this x => DeviceBundle.addPublicPreKey this (id x) (key x)) b l
  = DeviceBundle.mkBundle
      (DeviceBundle.m_publicIdentityKey b) (DeviceBundle.m_signedPublicPreKey b)
      (DeviceBundle.m_signedPublicPreKeyId b) (DeviceBundle.m_signedPublicPreKeySignature b)
      (foldl (fun keys x => <[id x := key x]> keys) (DeviceBundle.m_publicPreKeys b) l).
Proof.
  revert b; induction l as [|x l IH]; intros b; [by destruct b|].
  cbn [foldl]. by rewrite IH.
Qed.

(** What [parse] leaves in each field of a bundle, child by child. *)
Lemma parseBundle_fields this el :
  DeviceBundle.parse this el
  = DeviceBundle.mkBundle
      (fromBase64 (Dom.text (Dom.firstChildElement el "ik")))
      (match Dom.firstChildElement el "spk" with
       | Some spk => fromBase64 (Dom.text (Some spk))
       | None => DeviceBundle.m_signedPublicPreKey this
       end)
      (match Dom.firstChildElement el "spk" with
       | Some spk => Qt.to_uint32 (Qt.toInt (Dom.attribute (Some spk) "id"))
       | None => DeviceBundle.m_signedPublicPreKeyId this
       end)
      (fromBase64 (Dom.text (Dom.firstChildElement el "spks")))
      (match Dom.firstChildElement el "prekeys" with
       | Some prekeys =>
           foldl (fun keys pk =>
                    <[Qt.to_uint32 (Qt.toInt (Dom.attribute (Some pk) "id"))
                      := fromBase64 (Dom.text (Some pk))]> keys)
                 (DeviceBundle.m_publicPreKeys this)
                 (Dom.childElementsNamed (Some prekeys) "pk")
       | None => DeviceBundle.m_publicPreKeys this
       end).
Proof.
  unfold DeviceBundle.parse.
  destruct (Dom.firstChildElement el "spk"), (Dom.firstChildElement el "prekeys");
    cbn [isNull negb]; rewrite ?foldl_addPublicPreKey; reflexivity.
Qed.

Lemma preKey_insert_round_trip u (l : list (Z * list Byte.byte))
      (acc : gmap Z (list Byte.byte)) :
  Forall (fun it => 0 <= fst it <= Qt.INT_MAX /\ fromBase64 (toBase64 (snd it)) = snd it) l ->
  foldl (fun keys e =>
           <[Qt.to_uint32 (Qt.toInt (Dom.attribute (Some e) "id"))
             := fromBase64 (Dom.text (Some e))]> keys)
        acc (map (preKeyElement u) l)
  = foldl (fun acc it => <[fst it := snd it]> acc) acc l.
Proof.
  intros Hl. revert acc; induction Hl as [|[k v] l [Hk Hv] _ IH]; intros acc; [done|].
  cbn [map foldl fst snd] in *. rewrite IH. f_equal.
  unfold preKeyElement, Dom.text. rewrite nodeText_textNodes.
  unfold Dom.attribute.
  cbn [attributes lookupAttribute String.eqb Ascii.eqb Bool.eqb fst snd].
  rewrite toInt_number by (unfold Qt.INT_MIN; lia).
  rewrite to_uint32_small by done. by rewrite Hv.
Qed.

Lemma bundle_ik b :
  Dom.firstChildElement (Some (bundleElement b)) "ik"
  = Some (Element "ik" ns_omemo_2 [] (textNodes (toBase64 (DeviceBundle.m_publicIdentityKey b)))).
Proof. reflexivity. Qed.

Lemma bundle_spk b :
  Dom.firstChildElement (Some (bundleElement b)) "spk"
  = Some (Element "spk" ns_omemo_2 [("id", Qt.number (DeviceBundle.m_signedPublicPreKeyId b))]
            (textNodes (toBase64 (DeviceBundle.m_signedPublicPreKey b)))).
Proof. reflexivity. Qed.

Lemma bundle_spks b :
  Dom.firstChildElement (Some (bundleElement b)) "spks"
  = Some (Element "spks" ns_omemo_2 [] (textNodes (toBase64 (DeviceBundle.m_signedPublicPreKeySignature b)))).
Proof. reflexivity. Qed.

Lemma bundle_prekeys b :
  Dom.firstChildElement (Some (bundleElement b)) "prekeys"
  = Some (Element "prekeys" ns_omemo_2 []
            (map (fun it => inl (preKeyElement ns_omemo_2 it)) (qhashItems (DeviceBundle.m_publicPreKeys b)))).
Proof. reflexivity. Qed.

Lemma bundle_round_trip b :
  validBundle b -> DeviceBundle.parse DeviceBundle.newBundle (emitted (DeviceBundle.toXml b [])) = b.
Proof.
  intros (Hid & Hik & Hspk & Hspks & Hkeys). unfold validId, validKey in *.
  rewrite bundleToXml_emitted, parseBundle_fields.
  rewrite bundle_ik, bundle_spk, bundle_spks, bundle_prekeys.
  rewrite preKey_children.
  unfold Dom.text. rewrite !nodeText_textNodes.
  rewrite Hik, Hspk, Hspks.
  unfold Dom.attribute; cbn [attributes lookupAttribute String.eqb Ascii.eqb Bool.eqb].
  rewrite toInt_number by (unfold Qt.INT_MIN; lia).
  rewrite to_uint32_small by done.
  rewrite preKey_insert_round_trip.
  - cbn [DeviceBundle.m_publicPreKeys DeviceBundle.newBundle].
    rewrite (foldl_insert_items (DeviceBundle.m_publicPreKeys b)) by apply qhashItems_perm.
    by destruct b.
  - rewrite qhashItems_perm. apply Forall_forall. intros [k v] Hin.
    apply elem_of_map_to_list in Hin. exact (Hkeys k v Hin).
Qed.
End BundleRoundTrip.

(** ** One attribute at a time *)

Section EditLemmas.
Lemma eqb_trans_false k n m :
  String.eqb k n = true -> n <> m -> String.eqb k m = false.
Proof.
  intros ->%String.eqb_eq Hnm. by apply String.eqb_neq.
Qed.

Lemma lookup_setIn_eq a n v : lookupAttribute (setIn a n v) n = Some v.
Proof.
  induction a as [|[k x] a IH]; simpl.
  - by rewrite String.eqb_refl.
  - destruct (String.eqb k n) eqn:E; simpl; by rewrite E.
Qed.

Lemma lookup_setIn_ne a n v m :
  n <> m -> lookupAttribute (setIn a n v) m = lookupAttribute a m.
Proof.
  intros Hnm. induction a as [|[k x] a IH]; simpl.
  - apply String.eqb_neq in Hnm. by rewrite Hnm.
  - destruct (String.eqb k n) eqn:E; simpl.
    + by rewrite (eqb_trans_false _ _ _ E Hnm).
    + by rewrite IH.
Qed.

Lemma lookup_removeIn_eq a n : lookupAttribute (removeIn a n) n = None.
Proof.
  induction a as [|[k x] a IH]; simpl; [done|].
  destruct (String.eqb k n) eqn:E; simpl; [done|]. by rewrite E.
Qed.

Lemma lookup_removeIn_ne a n m :
  n <> m -> lookupAttribute (removeIn a n) m = lookupAttribute a m.
Proof.
  intros Hnm. induction a as [|[k x] a IH]; simpl; [done|].
  destruct (String.eqb k n) eqn:E; simpl.
  - by rewrite (eqb_trans_false _ _ _ E Hnm).
  - by rewrite IH.
Qed.
End EditLemmas.

Section Tolerant.
Context `{QtCodecs}.
Import ExternalService.

Lemma parse_setAttribute this e n v :
  sameExcept n (parse this (Some (setAttribute e n v))) (parse this (Some e)).
Proof.
  rewrite !parse_fields. destruct e as [t u a c]. cbv zeta. simpl attributes.
  repeat split; intros Hn; simpl; by rewrite lookup_setIn_ne.
Qed.

Lemma parse_removeAttribute this e n :
  sameExcept n (parse this (Some (removeAttribute e n))) (parse this (Some e)).
Proof.
  rewrite !parse_fields. destruct e as [t u a c]. cbv zeta. simpl attributes.
  repeat split; intros Hn; simpl; by rewrite lookup_removeIn_ne.
Qed.

Lemma toInt_not_a_number s : Qt.signedToZ (Qt.trimmed s) = None -> Qt.toInt s = 0.
Proof. unfold Qt.toInt. by intros ->. Qed.
End Tolerant.

(** ** Enumeration and boolean tokens *)

(** C7. The enum-to-string tables are total and one-to-one on the defined
    variants: reading back the token of an action or of a transport gives
    that variant, a text is read as a variant only when it is the token of
    that variant, and every other text is read as no value ([None]). *)
Theorem C7_enum_tables :
  (forall a, ExternalService.actionFromString (ExternalService.actionToString a) = Some a)
  /\ (forall t, ExternalService.transportFromString (ExternalService.transportToString t) = Some t)
  /\ (forall s a, ExternalService.actionFromString s = Some a <-> s = ExternalService.actionToString a)
  /\ (forall s t, ExternalService.transportFromString s = Some t <-> s = ExternalService.transportToString t)
  /\ (forall s, ExternalService.actionFromString s = None <-> s <> "add" /\ s <> "delete" /\ s <> "modify")
  /\ (forall s, ExternalService.transportFromString s = None <-> s <> "tcp" /\ s <> "udp").
Proof.
  split; [intros []; reflexivity|].
  split; [intros []; reflexivity|].
  split; [|split; [|split]].
  - intros s a. unfold ExternalService.actionFromString.
    destruct (String.eqb_spec s "add") as [->|H1];
      [destruct a; simpl; split; congruence|].
    destruct (String.eqb_spec s "delete") as [->|H2];
      [destruct a; simpl; split; congruence|].
    destruct (String.eqb_spec s "modify") as [->|H3];
      [destruct a; simpl; split; congruence|].
    destruct a; simpl; split; congruence.
  - intros s t. unfold ExternalService.transportFromString.
    destruct (String.eqb_spec s "tcp") as [->|H1];
      [destruct t; simpl; split; congruence|].
    destruct (String.eqb_spec s "udp") as [->|H2];
      [destruct t; simpl; split; congruence|].
    destruct t; simpl; split; congruence.
  - intros s. unfold ExternalService.actionFromString.
    destruct (String.eqb_spec s "add") as [->|H1]; [split; [discriminate | intros (? & _); done]|].
    destruct (String.eqb_spec s "delete") as [->|H2]; [split; [discriminate | intros (_ & ? & _); done]|].
    destruct (String.eqb_spec s "modify") as [->|H3]; [split; [discriminate | intros (_ & _ & ?); done]|].
    done.
  - intros s. unfold ExternalService.transportFromString.
    destruct (String.eqb_spec s "tcp") as [->|H1]; [split; [discriminate | intros (? & _); done]|].
    destruct (String.eqb_spec s "udp") as [->|H2]; [split; [discriminate | intros (_ & ?); done]|].
    done.
Qed.

(** C8. The restricted attribute is read as true exactly for the tokens
    "true" and "1": when the element has the attribute, the field of a newly
    constructed service is set, to true for these two tokens and to false for
    every other text; when the element has no such attribute, the field stays
    unset. *)
Theorem C8_restricted_tokens `{QtCodecs} (el : QDomElement) :
  let d := ExternalService.parse ExternalService.newService el in
  if Dom.contains (Dom.attributes el) "restricted"
  then exists b, ExternalService.restricted d = Some b
                 /\ (b = true <-> Dom.attribute el "restricted" = "true"
                                  \/ Dom.attribute el "restricted" = "1")
  else ExternalService.restricted d = None.
Proof.
  cbv zeta. rewrite parse_fields. cbv zeta. unfold Dom.contains, Dom.attribute.
  destruct (lookupAttribute (attributes el) "restricted") as [v|]; simpl; [|done].
  eexists; split; [reflexivity|].
  rewrite orb_true_iff, !String.eqb_eq. done.
Qed.

(** ** Lists of entries *)

Section Children.
Lemma iterChildElements_all el :
  Utils.iterChildElements el "" "" = Dom.childElements el.
Proof. unfold Utils.iterChildElements. by apply filter_all, Forall_true. Qed.

Lemma firstChildElement_any el :
  Dom.firstChildElement el "" = head (Dom.childElements el).
Proof.
  unfold Dom.firstChildElement, Dom.childElementsNamed.
  by rewrite filter_all by (by apply Forall_true).
Qed.

Lemma foldl_services `{QtCodecs} (l : list ElementNode) iq :
  ExternalService.externalServices
    (foldl (fun iq el =>
              if ExternalService.isExternalService (Some el)
              then ExternalService.addExternalService iq
                     (ExternalService.parse ExternalService.newService (Some el))
              else iq) iq l)
  = ExternalService.externalServices iq
    ++ map (fun c => ExternalService.parse ExternalService.newService (Some c))
           (List.filter (fun c => ExternalService.isExternalService (Some c)) l).
Proof.
  revert iq; induction l as [|c l IH]; intros iq; simpl.
  - by rewrite app_nil_r.
  - rewrite IH. destruct (ExternalService.isExternalService (Some c)); simpl; [|done].
    by rewrite <- app_assoc.
Qed.
End Children.

(** C6. Parsing a services container keeps exactly the children that
    [isExternalService] accepts, each parsed into a new service, in document
    order after the services already held; the other children are skipped.
    Starting from an empty IQ, the number of entries is the number of
    accepted children. *)
Theorem C6_services_in_document_order `{QtCodecs}
        (this : ExternalService.QXmppExternalServiceDiscoveryIq) (element : QDomElement) :
  let container := Utils.firstChildElement element "services" "" in
  let accepted := List.filter (fun c => ExternalService.isExternalService (Some c))
                              (Dom.childElements container) in
  ExternalService.externalServices (ExternalService.parseElementFromChild this element)
  = ExternalService.externalServices this
    ++ map (fun c => ExternalService.parse ExternalService.newService (Some c)) accepted
  /\ length (ExternalService.externalServices
               (ExternalService.parseElementFromChild ExternalService.newIq element))
     = length accepted.
Proof.
  cbv zeta. unfold ExternalService.parseElementFromChild.
  rewrite !foldl_services, iterChildElements_all. split; [done|].
  simpl. by rewrite length_map.
Qed.

Example C6_mixed_services :
  map ExternalService.host
      (ExternalService.externalServices
         (ExternalService.parseElementFromChild (@ExternalService.newIq Reference.codecs)
                                                (Some Samples.mixedServices)))
  = ["a.example.com"; "d.example.com"].
Proof. reflexivity. Qed.

(** C10. [QXmppOmemoDeviceList::parse] appends one device element for every
    child element whose tag name is "device", in document order, and tests
    nothing else: a child in a foreign namespace, which
    [isOmemoDeviceElement] rejects, produces an entry all the same. *)
Theorem C10_device_list_takes_every_device_tag :
  (forall (this : DeviceList.QXmppOmemoDeviceList) (element : QDomElement),
     DeviceList.parse this element
     = this ++ map (fun c => DeviceElement.parse DeviceElement.newDevice (Some c))
                   (List.filter (fun c => String.eqb (Dom.tagName (Some c)) "device")
                                (Dom.childElements element)))
  /\ (let foreign := Element "device" "urn:example:other" [("id", "2")] [] in
      In foreign (Dom.childElements (Some Samples.foreignDevices))
      /\ DeviceElement.isOmemoDeviceElement (Some foreign) = false
      /\ DeviceList.parse [] (Some Samples.foreignDevices)
         = [DeviceElement.mkDevice 1 ""; DeviceElement.mkDevice 2 ""]).
Proof.
  split; [apply parseDeviceList_entries|].
  cbv zeta. split; [right; left; reflexivity|]. split; reflexivity.
Qed.

(** C9. A device element with the ID 0 is written with the attribute value
    "0", and parsing what was written gives the ID 0 again; [parse] accepts
    any element whose id attribute is "0" and stores the ID 0. *)
Theorem C9_id_zero_round_trip (label : string) :
  let d := DeviceElement.mkDevice 0 label in
  written (DeviceElement.toXml d []) "id" = Some "0"
  /\ DeviceElement.parse DeviceElement.newDevice (emitted (DeviceElement.toXml d [])) = d
  /\ (forall this t u a c,
        DeviceElement.m_id (DeviceElement.parse this (Some (Element t u (("id", "0") :: a) c))) = 0).
Proof.
  cbv zeta. split; [|split].
  - rewrite deviceToXml_calls. reflexivity.
  - apply device_round_trip. simpl. unfold Qt.INT_MAX. lia.
  - intros. reflexivity.
Qed.

(** C4 (as stated): [isOmemoIq] would accept an element exactly when it has
    one child and that child is the encrypted payload.  An IQ with two
    children whose first child is the encrypted payload is accepted. *)
Lemma C4_counterexample :
  ~ (OmemoIq.isOmemoIq Samples.isEncrypted (Some Samples.twoChildren) = true
     <-> exists c, Dom.childElements (Some Samples.twoChildren) = [c]
                   /\ Samples.isEncrypted (Some c) = true).
Proof.
  intros [Hfwd _]. destruct (Hfwd eq_refl) as (c & Hc & _). discriminate Hc.
Qed.

(** C4 (amended). [isOmemoIq] accepts an element exactly when it has a child
    element and the first child element is accepted by the recogniser of the
    encrypted payload; the children after the first are not looked at. *)
Theorem C4_isOmemoIq_first_child (isOmemoElement : QDomElement -> bool) (element : QDomElement) :
  OmemoIq.isOmemoIq isOmemoElement element = true
  <-> exists c, head (Dom.childElements element) = Some c
                /\ isOmemoElement (Some c) = true.
Proof.
  unfold OmemoIq.isOmemoIq. rewrite firstChildElement_any.
  destruct (head (childElements element)) as [c|]; simpl.
  - split; [intros Hc; by exists c | intros (c' & [= <-] & Hc); done].
  - split; [done | intros (c & Hc & _); done].
Qed.

(** ** What [toXml] writes *)

Section Written.
Context `{QtCodecs}.

Lemma writtenAttributes_element t a :
  writtenAttributes (StartElement t :: map attributeCall a ++ [EndElement]) = a.
Proof.
  unfold writtenAttributes. cbn [omap list_omap].
  induction a as [|[k v] a IH]; [done|]. cbn. by f_equal.
Qed.

Lemma opened_element t a :
  opened (StartElement t :: map attributeCall a ++ [EndElement]) = 1%nat.
Proof.
  unfold opened. cbn [List.filter length]. f_equal.
  induction a as [|[k v] a IH]; [done|]. exact IH.
Qed.

End Written.

(** C5. [toXml] of a service and of a device element opens exactly one
    element.  For a service, host and type are always written, whatever
    their text, the empty text included; each optional field writes its
    attribute when it is set and no attribute when it is unset; and nothing
    else is written.  For a device element the id is always written, and
    the label when it is not empty. *)
Theorem C5_written_attributes `{QtCodecs} :
  (forall d : ExternalService.QXmppExternalService,
     let w := ExternalService.toXml d [] in
     opened w = 1%nat
     /\ written w "host" = Some (ExternalService.host d)
     /\ written w "type" = Some (ExternalService.type d)
     /\ written w "action" = (ExternalService.actionToString <$> ExternalService.action d)
     /\ written w "expires" = (toStringISODateWithMs <$> ExternalService.expires d)
     /\ written w "name" = ExternalService.name d
     /\ written w "password" = ExternalService.password d
     /\ written w "port" = (Qt.number <$> ExternalService.port d)
     /\ written w "restricted"
        = ((fun b : bool => if b then "true" else "false") <$> ExternalService.restricted d)
     /\ written w "transport" = (ExternalService.transportToString <$> ExternalService.transport d)
     /\ written w "username" = ExternalService.username d
     /\ writtenAttributes w = serviceAttributes d)
  /\ (forall d : DeviceElement.QXmppOmemoDeviceElement,
        let w := DeviceElement.toXml d [] in
        opened w = 1%nat
        /\ written w "id" = Some (Qt.number (DeviceElement.m_id d))
        /\ written w "label" = nonEmpty (Some (DeviceElement.m_label d))
        /\ writtenAttributes w = deviceAttributes d).
Proof.
  split.
  - intros d. cbv zeta. unfold written. rewrite toXml_calls, app_nil_l.
    rewrite writtenAttributes_element, opened_element.
    destruct (service_lookups d) as (-> & -> & -> & -> & -> & -> & -> & -> & -> & ->).
    repeat split.
  - intros d. cbv zeta. unfold written. rewrite deviceToXml_calls, app_nil_l.
    unfold deviceCalls. rewrite writtenAttributes_element, opened_element.
    unfold deviceAttributes, optAttr. repeat split.
    cbn [lookupAttribute String.eqb Ascii.eqb Bool.eqb].
    by destruct (DeviceElement.m_label d).
Qed.

(** C5 on a newly constructed service, whose host and type are empty, and
    on the turn service. *)
Example C5_empty_host_is_written :
  writtenAttributes (ExternalService.toXml (@ExternalService.newService Reference.codecs) [])
  = [("host", ""); ("type", "")]
  /\ writtenAttributes (ExternalService.toXml Samples.turnService [])
     = [("host", "turn.example.com"); ("type", "turn"); ("port", "3478"); ("transport", "udp")].
Proof. split; reflexivity. Qed.

(** ** Recognisers *)

Section Recognisers.
Lemma andb_eqb_iff a b c d :
  String.eqb a b && String.eqb c d = true <-> a = b /\ c = d.
Proof. by rewrite andb_true_iff, !String.eqb_eq. Qed.

Lemma isEmpty_negb s : negb (Qt.isEmpty s) = true <-> s <> "".
Proof. destruct s; simpl; split; congruence. Qed.
End Recognisers.

(** C3 (as stated): the recogniser of a type would accept everything that
    type's [toXml] writes.  A newly constructed service, whose host and type
    are empty, is written as an element that [isExternalService] rejects. *)
Lemma C3_counterexample :
  emitted (ExternalService.toXml (@ExternalService.newService Reference.codecs) [])
  = Some (Element "service" "" [("host", ""); ("type", "")] [])
  /\ ExternalService.isExternalService
       (emitted (ExternalService.toXml (@ExternalService.newService Reference.codecs) []))
     = false.
Proof. split; reflexivity. Qed.

(** C3 (amended). Each recogniser accepts exactly the elements with the
    required tag and namespace or required attributes, so it rejects every
    other element.  What [toXml] writes for a service is accepted exactly when
    the host and the type of the service are both not empty.  What it writes
    for a device list and for a bundle is always accepted, and so is every
    device element inside a written device list.  A device element written
    on its own carries no namespace and is rejected. *)
Theorem C3_recognisers `{QtCodecs} :
  (forall el, ExternalService.isExternalService el = true
              <-> Dom.tagName el = "service"
                  /\ Dom.attribute el "host" <> "" /\ Dom.attribute el "type" <> "")
  /\ (forall el, DeviceElement.isOmemoDeviceElement el = true
                 <-> Dom.tagName el = "device" /\ Dom.namespaceURI el = ns_omemo_2)
  /\ (forall el, DeviceList.isOmemoDeviceList el = true
                 <-> Dom.tagName el = "devices" /\ Dom.namespaceURI el = ns_omemo_2)
  /\ (forall el, DeviceBundle.isOmemoDeviceBundle el = true
                 <-> Dom.tagName el = "bundle" /\ Dom.namespaceURI el = ns_omemo_2)
  /\ (forall d : ExternalService.QXmppExternalService,
        ExternalService.isExternalService (emitted (ExternalService.toXml d []))
        = negb (Qt.isEmpty (ExternalService.host d)) && negb (Qt.isEmpty (ExternalService.type d)))
  /\ (forall l : DeviceList.QXmppOmemoDeviceList,
        DeviceList.isOmemoDeviceList (emitted (DeviceList.toXml l [])) = true
        /\ length (Dom.childElements (emitted (DeviceList.toXml l []))) = length l
        /\ Forall (fun c => DeviceElement.isOmemoDeviceElement (Some c) = true)
                  (Dom.childElements (emitted (DeviceList.toXml l []))))
  /\ (forall b, DeviceBundle.isOmemoDeviceBundle (emitted (DeviceBundle.toXml b [])) = true)
  /\ (forall d, DeviceElement.isOmemoDeviceElement (emitted (DeviceElement.toXml d [])) = false).
Proof.
  split; [|split; [|split; [|split; [|split; [|split; [|split]]]]]].
  - intros el. unfold ExternalService.isExternalService.
    destruct (String.eqb_spec (tagName el) "service") as [Ht|Ht]; simpl.
    + rewrite andb_true_iff, !isEmpty_negb. tauto.
    + split; [discriminate | tauto].
  - intros el. apply andb_eqb_iff.
  - intros el. apply andb_eqb_iff.
  - intros el. apply andb_eqb_iff.
  - intros d. rewrite toXml_emitted. unfold ExternalService.isExternalService, Dom.attribute.
    cbn [tagName attributes].
    destruct (service_lookups d) as (-> & -> & _).
    destruct (ExternalService.host d), (ExternalService.type d); reflexivity.
  - intros l. rewrite deviceListToXml_emitted. split; [reflexivity|].
    unfold childElements. cbn [childNodes].
    rewrite <- (map_map (deviceElement ns_omemo_2) inl), omap_inl.
    split; [by rewrite length_map|].
    apply Forall_map, Forall_true. done.
  - intros b. by rewrite bundleToXml_emitted.
  - intros d. by rewrite deviceToXml_emitted.
Qed.

(** ** Round trip *)

(** C1. Parsing into a new object what [toXml] has written gives the value
    back field for field, set and unset optional fields included, so that a
    name, password or username set to the empty text comes back set to the
    empty text: for every service whose port is an [int] and whose
    timestamp, when set, the timestamp codec reads back from its own text;
    for a device element whose ID is at most INT32_MAX; for a device list of
    such elements; and for a bundle whose IDs are at most INT32_MAX and
    whose keys base64 carries faithfully. *)
Theorem C1_round_trip `{QtCodecs} :
  (forall v : ExternalService.QXmppExternalService,
     validService v ->
     ExternalService.parse ExternalService.newService (emitted (ExternalService.toXml v [])) = v)
  /\ (forall d : DeviceElement.QXmppOmemoDeviceElement,
        validId (DeviceElement.m_id d) ->
        DeviceElement.parse DeviceElement.newDevice (emitted (DeviceElement.toXml d [])) = d)
  /\ (forall l : DeviceList.QXmppOmemoDeviceList,
        Forall (fun d => validId (DeviceElement.m_id d)) l ->
        DeviceList.parse [] (emitted (DeviceList.toXml l [])) = l)
  /\ (forall b : DeviceBundle.QXmppOmemoDeviceBundle,
        validBundle b ->
        DeviceBundle.parse DeviceBundle.newBundle (emitted (DeviceBundle.toXml b [])) = b).
Proof.
  split; [exact service_round_trip|].
  split; [exact device_round_trip|].
  split; [exact device_list_round_trip | exact bundle_round_trip].
Qed.

(** C1, run on a service with every field set, on a service whose name is
    set to the empty text, on a device element, a device list and a bundle
    with two pre-keys. *)
Lemma C1_round_trip_witness :
  ExternalService.parse ExternalService.newService
    (emitted (ExternalService.toXml Samples.fullService [])) = Samples.fullService
  /\ ExternalService.parse ExternalService.newService
       (emitted (ExternalService.toXml Samples.unnamedService [])) = Samples.unnamedService
  /\ DeviceElement.parse DeviceElement.newDevice (emitted (DeviceElement.toXml Samples.phone []))
     = Samples.phone
  /\ DeviceList.parse [] (emitted (DeviceList.toXml [Samples.phone; Samples.laptop] []))
     = [Samples.phone; Samples.laptop]
  /\ @DeviceBundle.parse Reference.codecs DeviceBundle.newBundle
       (emitted (@DeviceBundle.toXml Reference.codecs Samples.sampleBundle []))
     = Samples.sampleBundle.
Proof.
  destruct (@C1_round_trip Reference.codecs) as (Hs & Hd & Hl & Hb).
  split; [|split; [|split; [|split]]].
  - apply Hs. unfold validService. simpl.
    split; [intros t [= <-]; reflexivity|].
    intros p [= <-]. vm_compute. split; discriminate.
  - apply Hs. unfold validService. simpl.
    split; [intros t [=]|].
    intros p [= <-]. vm_compute. split; discriminate.
  - apply Hd. vm_compute. split; discriminate.
  - apply Hl. repeat constructor; vm_compute; discriminate.
  - apply Hb. unfold validBundle. simpl.
    split; [vm_compute; split; discriminate|].
    split; [reflexivity|]. split; [reflexivity|]. split; [reflexivity|].
    apply map_Forall_insert_2; [split; [vm_compute; split; discriminate | reflexivity]|].
    apply map_Forall_insert_2; [split; [vm_compute; split; discriminate | reflexivity]|].
    apply map_Forall_empty.
Defined.

Example C1_empty_name_comes_back :
  @ExternalService.name Reference.codecs
    (ExternalService.parse ExternalService.newService
       (emitted (ExternalService.toXml Samples.unnamedService [])))
  = Some "".
Proof. reflexivity. Qed.

(** ** Tolerant parsing *)

(** C2 (as stated): a malformed timestamp and malformed base64 in a key
    would leave the field unset or at its zero value.  [parse] stores what
    the codec returns for the text.  An expires attribute that is no
    timestamp leaves expires set, holding the null timestamp; an identity
    key with a character outside the base64 alphabet is decoded from the
    characters that remain and is not empty. *)
Lemma C2_counterexample :
  let d := @ExternalService.parse Reference.codecs ExternalService.newService
             (Some Samples.damagedElement) in
  let b := @DeviceBundle.parse Reference.codecs DeviceBundle.newBundle
             (Some Samples.damagedKeyBundle) in
  Dom.attribute (Some Samples.damagedElement) "expires" = "tomorrow"
  /\ ExternalService.expires d = Some (None : @QDateTime Reference.codecs)
  /\ ExternalService.expires d <> None
  /\ Dom.text (Dom.firstChildElement (Some Samples.damagedKeyBundle) "ik") = "TW!Fu"
  /\ DeviceBundle.m_publicIdentityKey b = [Byte.x4d; Byte.x61; Byte.x6e]
  /\ DeviceBundle.m_publicIdentityKey b <> [].
Proof. repeat split; try reflexivity; discriminate. Qed.

(** C2 (amended). [parse] is a total function of the element: no
    field-level failure stops it, and every field is read from its own
    attribute or child element alone.  For a service: host and type are the
    attribute's text, empty when it is missing; action and transport are
    the variant of the token, and unset for a missing or unknown token;
    expires, name, password, port, restricted and username are set exactly
    when the attribute is present, the port to the number read, which is 0
    for a text that is no number, and expires to what the timestamp codec
    returns for the text, malformed or not; replacing or removing one
    attribute changes no field but the one read from it.  For a bundle: the
    identity key and the signature are what the base64 codec returns for
    the text of the child, the signed pre-key and its ID are read from the
    spk child and stay as they were without it, the ID being 0 for a text
    that is no number, and the pre-keys are inserted one pk child after the
    other into those the bundle held; two elements with the same child give
    the same field. *)
Theorem C2_tolerant_parse `{QtCodecs} :
  (forall this el,
     let d := ExternalService.parse this el in
     let present n := Dom.contains (Dom.attributes el) n in
     ExternalService.host d = Dom.attribute el "host"
     /\ ExternalService.type d = Dom.attribute el "type"
     /\ ExternalService.action d = ExternalService.actionFromString (Dom.attribute el "action")
     /\ ExternalService.expires d
        = (if present "expires" then Some (datetimeFromString (Dom.attribute el "expires"))
           else ExternalService.expires this)
     /\ ExternalService.name d
        = (if present "name" then Some (Dom.attribute el "name") else ExternalService.name this)
     /\ ExternalService.password d
        = (if present "password" then Some (Dom.attribute el "password")
           else ExternalService.password this)
     /\ ExternalService.port d
        = (if present "port" then Some (Qt.toInt (Dom.attribute el "port"))
           else ExternalService.port this)
     /\ ExternalService.restricted d
        = (if present "restricted"
           then Some (String.eqb (Dom.attribute el "restricted") "true"
                      || String.eqb (Dom.attribute el "restricted") "1")
           else ExternalService.restricted this)
     /\ ExternalService.transport d
        = ExternalService.transportFromString (Dom.attribute el "transport")
     /\ ExternalService.username d
        = (if present "username" then Some (Dom.attribute el "username")
           else ExternalService.username this))
  /\ (forall this e n v,
        sameExcept n (ExternalService.parse this (Some (setAttribute e n v)))
                     (ExternalService.parse this (Some e)))
  /\ (forall this e n,
        sameExcept n (ExternalService.parse this (Some (removeAttribute e n)))
                     (ExternalService.parse this (Some e)))
  /\ (forall this e v,
        (ExternalService.actionFromString v = None ->
         ExternalService.action (ExternalService.parse this (Some (setAttribute e "action" v))) = None)
        /\ (ExternalService.transportFromString v = None ->
            ExternalService.transport
              (ExternalService.parse this (Some (setAttribute e "transport" v))) = None)
        /\ (Qt.signedToZ (Qt.trimmed v) = None ->
            ExternalService.port (ExternalService.parse this (Some (setAttribute e "port" v)))
            = Some 0)
        /\ ExternalService.expires (ExternalService.parse this (Some (setAttribute e "expires" v)))
           = Some (datetimeFromString v))
  /\ (forall e,
        let missing n := ExternalService.parse ExternalService.newService
                           (Some (removeAttribute e n)) in
        ExternalService.host (missing "host") = ""
        /\ ExternalService.type (missing "type") = ""
        /\ ExternalService.action (missing "action") = None
        /\ ExternalService.expires (missing "expires") = None
        /\ ExternalService.name (missing "name") = None
        /\ ExternalService.password (missing "password") = None
        /\ ExternalService.port (missing "port") = None
        /\ ExternalService.restricted (missing "restricted") = None
        /\ ExternalService.transport (missing "transport") = None
        /\ ExternalService.username (missing "username") = None)
  /\ (forall this el,
        let b := DeviceBundle.parse this el in
        DeviceBundle.m_publicIdentityKey b = fromBase64 (Dom.text (Dom.firstChildElement el "ik"))
        /\ DeviceBundle.m_signedPublicPreKeySignature b
           = fromBase64 (Dom.text (Dom.firstChildElement el "spks"))
        /\ DeviceBundle.m_signedPublicPreKey b
           = match Dom.firstChildElement el "spk" with
             | Some spk => fromBase64 (Dom.text (Some spk))
             | None => DeviceBundle.m_signedPublicPreKey this
             end
        /\ DeviceBundle.m_signedPublicPreKeyId b
           = match Dom.firstChildElement el "spk" with
             | Some spk => Qt.to_uint32 (Qt.toInt (Dom.attribute (Some spk) "id"))
             | None => DeviceBundle.m_signedPublicPreKeyId this
             end
        /\ DeviceBundle.m_publicPreKeys b
           = match Dom.firstChildElement el "prekeys" with
             | Some prekeys =>
                 foldl (fun keys pk =>
                          <[Qt.to_uint32 (Qt.toInt (Dom.attribute (Some pk) "id"))
                            := fromBase64 (Dom.text (Some pk))]> keys)
                       (DeviceBundle.m_publicPreKeys this)
                       (Dom.childElementsNamed (Some prekeys) "pk")
             | None => DeviceBundle.m_publicPreKeys this
             end
        /\ (forall spk, Dom.firstChildElement el "spk" = Some spk ->
            Qt.signedToZ (Qt.trimmed (Dom.attribute (Some spk) "id")) = None ->
            DeviceBundle.m_signedPublicPreKeyId b = 0))
  /\ (forall this el el',
        let b := DeviceBundle.parse this el in
        let b' := DeviceBundle.parse this el' in
        (sameChild "ik" el el' -> DeviceBundle.m_publicIdentityKey b = DeviceBundle.m_publicIdentityKey b')
        /\ (sameChild "spk" el el' ->
            DeviceBundle.m_signedPublicPreKeyId b = DeviceBundle.m_signedPublicPreKeyId b'
            /\ DeviceBundle.m_signedPublicPreKey b = DeviceBundle.m_signedPublicPreKey b')
        /\ (sameChild "spks" el el' ->
            DeviceBundle.m_signedPublicPreKeySignature b = DeviceBundle.m_signedPublicPreKeySignature b')
        /\ (sameChild "prekeys" el el' -> DeviceBundle.m_publicPreKeys b = DeviceBundle.m_publicPreKeys b')).
Proof.
  split; [|split; [exact parse_setAttribute|]].
  { intros this el. cbv beta zeta. rewrite parse_fields. cbv zeta.
    unfold Dom.contains, Dom.attribute.
    cbn [ExternalService.host ExternalService.type ExternalService.action
         ExternalService.expires ExternalService.name ExternalService.password
         ExternalService.port ExternalService.restricted ExternalService.transport
         ExternalService.username].
    repeat split;
      repeat match goal with |- context [lookupAttribute ?a ?n] =>
        destruct (lookupAttribute a n) end; reflexivity. }
  split; [exact parse_removeAttribute|].
  split; [|split; [|split]].
  - intros this [t u a c] v. rewrite !parse_fields. cbv zeta. cbn [attributes setAttribute].
    simpl. rewrite !lookup_setIn_eq. simpl.
    repeat split; try done.
    intros Hv. by rewrite (toInt_not_a_number _ Hv).
  - intros [t u a c]. cbv beta zeta. rewrite !parse_fields. cbv zeta. cbn [attributes removeAttribute].
    simpl. rewrite !lookup_removeIn_eq. repeat split.
  - intros this el. cbv zeta. rewrite parseBundle_fields.
    cbn [DeviceBundle.m_publicIdentityKey DeviceBundle.m_signedPublicPreKey DeviceBundle.m_signedPublicPreKeyId
         DeviceBundle.m_signedPublicPreKeySignature DeviceBundle.m_publicPreKeys].
    repeat split.
    intros spk -> Hid. by rewrite (toInt_not_a_number _ Hid).
  - intros this el el'. cbv zeta. unfold sameChild. rewrite !parseBundle_fields.
    cbn [DeviceBundle.m_publicIdentityKey DeviceBundle.m_signedPublicPreKey DeviceBundle.m_signedPublicPreKeyId
         DeviceBundle.m_signedPublicPreKeySignature DeviceBundle.m_publicPreKeys].
    split; [by intros ->|]. split; [by intros ->|]. split; by intros ->.
Qed.

(** C2 (amended), run on a service element with a damaged action and a
    damaged port, and on a bundle element without a signed pre-key. *)
Lemma C2_tolerant_parse_witness :
  let d := @ExternalService.parse Reference.codecs ExternalService.newService
             (Some (setAttribute Samples.damagedElement "action" "remove")) in
  let d' := @ExternalService.parse Reference.codecs ExternalService.newService
              (Some (setAttribute Samples.turnElement "port" "34x8")) in
  let b := @DeviceBundle.parse Reference.codecs DeviceBundle.newBundle (Some Samples.damagedBundle) in
  ExternalService.action d = None
  /\ ExternalService.port d' = Some 0
  /\ sameExcept "port" d' (ExternalService.parse ExternalService.newService (Some Samples.turnElement))
  /\ DeviceBundle.m_signedPublicPreKeyId b = 0
  /\ DeviceBundle.m_publicPreKeys b = <[1 := Samples.key1]> ∅.
Proof.
  destruct (@C2_tolerant_parse Reference.codecs) as (_ & Hset & _ & Hbad & _ & Hbundle & _).
  cbv zeta.
  split; [apply (Hbad ExternalService.newService Samples.damagedElement "remove"); reflexivity|].
  split; [apply (Hbad ExternalService.newService Samples.turnElement "34x8"); reflexivity|].
  split; [apply Hset|].
  destruct (Hbundle DeviceBundle.newBundle (Some Samples.damagedBundle))
    as (_ & _ & _ & Hid & Hkeys & _).
  split; [exact Hid | exact Hkeys].
Defined.

Example C2_damaged_service :
  @ExternalService.parse Reference.codecs ExternalService.newService (Some Samples.damagedElement)
  = ExternalService.mkService "turn.example.com" "turn" None
                              (Some (None : @QDateTime Reference.codecs)) None None (Some 0)
                              None None (Some "alice").
Proof. reflexivity. Qed.

Example C2_damaged_bundle :
  @DeviceBundle.parse Reference.codecs DeviceBundle.newBundle (Some Samples.damagedBundle)
  = DeviceBundle.mkBundle [] [] 0 Samples.key1 (<[1 := Samples.key1]> ∅).
Proof. reflexivity. Qed.

Example spec_turn_service :
  @ExternalService.parse Reference.codecs ExternalService.newService (Some Samples.turnElement)
  = Samples.turnService
  /\ writtenAttributes (ExternalService.toXml Samples.turnService [])
     = Dom.attributes (Some Samples.turnElement).
Proof. split; reflexivity. Qed.

Example spec_remove_prekey :
  let b := @DeviceBundle.parse Reference.codecs DeviceBundle.newBundle
             (emitted (@DeviceBundle.toXml Reference.codecs Samples.sampleBundle [])) in
  size (DeviceBundle.m_publicPreKeys b) = 2%nat
  /\ Dom.childElements
       (Dom.firstChildElement
          (emitted (@DeviceBundle.toXml Reference.codecs (DeviceBundle.removePublicPreKey b 1) []))
          "prekeys")
     = [Element "pk" ns_omemo_2 [("id", "2")] [inr "AP8="]].
Proof. split; vm_compute; reflexivity. Qed.

(* ===================================================================== *)
(** * Further properties: the services IQ, pre-keys, writers and IDs *)
(* ===================================================================== *)

(** ** The services IQ *)

Section ServicesIq.
Context `{QtCodecs}.

Lemma toXml_serviceCalls d w : ExternalService.toXml d w = w ++ serviceCalls d.
Proof. apply toXml_calls. Qed.

Lemma read_services l w t u a n k c :
  readCalls (concat (map serviceCalls l) ++ w) (mkReader (mkOpen t u a n :: k) c)
  = readCalls w (mkReader (mkOpen t u a (rev (map (fun d => inl (serviceElement u d)) l) ++ n) :: k) c).
Proof.
  revert n; induction l as [|d l IH]; intros n; [done|].
  change (concat (map serviceCalls (d :: l)))
    with (serviceCalls d ++ concat (map serviceCalls l)).
  unfold serviceCalls at 1.
  repeat first [ rewrite <- app_assoc | rewrite <- app_comm_cons ].
  change ([EndElement] ++ ?x) with (EndElement :: x).
  rewrite read_empty_element.
  unfold attach, inheritedNs. cbn [r_open r_closed o_tag o_ns o_attrs o_nodes]. rewrite IH.
  cbn [map rev]. by rewrite <- app_assoc.
Qed.

Lemma toXmlElementFromChild_calls iq w :
  ExternalService.toXmlElementFromChild iq w
  = w ++ StartElement "services" :: DefaultNamespace ns_external_service_discovery
         :: concat (map serviceCalls (ExternalService.externalServices iq)) ++ [EndElement].
Proof.
  unfold ExternalService.toXmlElementFromChild, writeEndElement, writeDefaultNamespace,
    writeStartElement.
  rewrite (foldl_calls serviceCalls ExternalService.toXml) by apply toXml_serviceCalls.
  by rewrite <- !app_assoc.
Qed.

Lemma toXmlElementFromChild_emitted iq :
  emitted (ExternalService.toXmlElementFromChild iq []) = Some (servicesElement iq).
Proof.
  rewrite toXmlElementFromChild_calls, app_nil_l. unfold emitted.
  rewrite read_start.
  change (readCalls (DefaultNamespace ns_external_service_discovery :: ?w) ?r)
    with (readCalls w (mkReader [mkOpen "services" ns_external_service_discovery [] []] [])).
  rewrite read_services, read_end, app_nil_r, rev_involutive. reflexivity.
Qed.

Lemma servicesElement_children iq :
  Dom.childElements (Some (servicesElement iq))
  = map (serviceElement ns_external_service_discovery) (ExternalService.externalServices iq).
Proof.
  unfold childElements, servicesElement. cbn [childNodes].
  by rewrite <- (map_map (serviceElement ns_external_service_discovery) inl), omap_inl.
Qed.

(** [parse] reads the attributes of the element and nothing else. *)
Lemma parse_serviceElement this u d :
  ExternalService.parse this (Some (serviceElement u d))
  = ExternalService.parse this (emitted (ExternalService.toXml d [])).
Proof. by rewrite toXml_emitted, !parse_fields. Qed.

Lemma isExternalService_serviceElement u d :
  ExternalService.isExternalService (Some (serviceElement u d)) = hasHostAndType d.
Proof.
  unfold ExternalService.isExternalService, Dom.attribute, hasHostAndType, serviceElement.
  cbn [tagName attributes].
  destruct (service_lookups d) as (-> & -> & _).
  reflexivity.
Qed.

(** What [parseElementFromChild] appends. *)
Lemma parseElementFromChild_entries this element :
  ExternalService.externalServices (ExternalService.parseElementFromChild this element)
  = ExternalService.externalServices this
    ++ map (fun c => ExternalService.parse ExternalService.newService (Some c))
           (List.filter (fun c => ExternalService.isExternalService (Some c))
                        (Dom.childElements (Utils.firstChildElement element "services" ""))).
Proof.
  unfold ExternalService.parseElementFromChild.
  by rewrite foldl_services, iterChildElements_all.
Qed.

Lemma filter_map {A B} (p : B -> bool) (f : A -> B) (l : list A) :
  List.filter p (map f l) = map f (List.filter (fun x => p (f x)) l).
Proof.
  induction l as [|x l IH]; [done|]. cbn [map List.filter].
  destruct (p (f x)); cbn [map]; by rewrite IH.
Qed.
End ServicesIq.

(** What comes back of the services that [toXmlElementFromChild] wrote. *)
Lemma written_services_reparsed `{QtCodecs}
      (iq : ExternalService.QXmppExternalServiceDiscoveryIq) (element : QDomElement) :
  Utils.firstChildElement element "services" ""
  = emitted (ExternalService.toXmlElementFromChild iq []) ->
  ExternalService.externalServices
    (ExternalService.parseElementFromChild ExternalService.newIq element)
  = map reparsed (List.filter hasHostAndType (ExternalService.externalServices iq)).
Proof.
  intros Hchild.
  rewrite parseElementFromChild_entries.
  rewrite Hchild, toXmlElementFromChild_emitted, servicesElement_children.
  cbn [ExternalService.externalServices ExternalService.newIq app].
  rewrite filter_map, map_map.
  rewrite (List.filter_ext _ hasHostAndType)
    by (intros d; apply isExternalService_serviceElement).
  apply map_ext. intros d. apply parse_serviceElement.
Qed.

(** X2. Writing an IQ and parsing the services container back keeps, in
    order, the services whose host and type are both not empty, each as it
    comes back from its own round trip; a service with an empty host or type
    is written but dropped on the way back. *)
Theorem services_iq_round_trip_drops `{QtCodecs}
        (iq : ExternalService.QXmppExternalServiceDiscoveryIq) (element : QDomElement) :
  Utils.firstChildElement element "services" ""
  = emitted (ExternalService.toXmlElementFromChild iq []) ->
  ExternalService.externalServices
    (ExternalService.parseElementFromChild ExternalService.newIq element)
  = map reparsed (List.filter hasHostAndType (ExternalService.externalServices iq))
  /\ length (Dom.childElements (Utils.firstChildElement element "services" ""))
     = length (ExternalService.externalServices iq).
Proof.
  intros Hchild. split; [by apply written_services_reparsed|].
  rewrite Hchild, toXmlElementFromChild_emitted, servicesElement_children.
  apply length_map.
Qed.

Lemma services_iq_round_trip_drops_witness :
  ExternalService.externalServices
    (ExternalService.parseElementFromChild ExternalService.newIq
       (MoreSamples.iqAround
          (emitted (ExternalService.toXmlElementFromChild MoreSamples.threeServices []))))
  = map reparsed [Samples.fullService; Samples.turnService].
Proof.
  apply (services_iq_round_trip_drops MoreSamples.threeServices).
  vm_compute. reflexivity.
Defined.

(** X1. Writing an IQ and parsing the services container back gives the
    same list of services, when every service has a host and a type that
    are not empty and makes the round trip on its own. *)
Theorem services_iq_round_trip `{QtCodecs}
        (iq : ExternalService.QXmppExternalServiceDiscoveryIq) (element : QDomElement) :
  Forall (fun d => hasHostAndType d = true /\ validService d)
         (ExternalService.externalServices iq) ->
  Utils.firstChildElement element "services" ""
  = emitted (ExternalService.toXmlElementFromChild iq []) ->
  ExternalService.parseElementFromChild ExternalService.newIq element = iq.
Proof.
  intros Hvalid Hchild.
  pose proof (written_services_reparsed iq element Hchild) as Hparsed.
  destruct (ExternalService.parseElementFromChild ExternalService.newIq element) as [l].
  destruct iq as [services]. cbn [ExternalService.externalServices] in *.
  f_equal. rewrite Hparsed. clear Hparsed Hchild.
  induction Hvalid as [|d services [Hd Hv] _ IH]; [done|].
  cbn [List.filter]. rewrite Hd. cbn [map].
  f_equal; [|exact IH].
  by apply service_round_trip.
Qed.

Lemma services_iq_round_trip_witness :
  ExternalService.parseElementFromChild ExternalService.newIq
    (MoreSamples.iqAround
       (emitted (ExternalService.toXmlElementFromChild MoreSamples.twoServices [])))
  = MoreSamples.twoServices.
Proof.
  apply (services_iq_round_trip MoreSamples.twoServices); [|vm_compute; reflexivity].
  apply List.Forall_cons; [|apply List.Forall_cons; [|apply List.Forall_nil]].
  - split; [reflexivity|]. split.
    + intros t [= <-]. vm_compute. reflexivity.
    + intros p [= <-]. vm_compute. split; discriminate.
  - split; [reflexivity|]. split.
    + intros t [=].
    + intros p [= <-]. vm_compute. split; discriminate.
Defined.

(** X3. What [toXmlElementFromChild] writes is one element that
    [checkIqType] accepts; its children are elements only, one per service
    of the IQ, each called "service" and in the namespace of the container. *)
Theorem services_iq_written `{QtCodecs} (iq : ExternalService.QXmppExternalServiceDiscoveryIq) :
  let e := emitted (ExternalService.toXmlElementFromChild iq []) in
  ExternalService.checkIqType (Dom.tagName e) (Dom.namespaceURI e) = true
  /\ Dom.childNodes e = map inl (Dom.childElements e)
  /\ length (Dom.childElements e) = length (ExternalService.externalServices iq)
  /\ Forall (fun c => Dom.tagName (Some c) = "service"
                      /\ Dom.namespaceURI (Some c) = ns_external_service_discovery)
            (Dom.childElements e).
Proof.
  cbv zeta. rewrite toXmlElementFromChild_emitted, servicesElement_children.
  split; [reflexivity|]. split; [|split].
  - unfold servicesElement. cbn [childNodes]. by rewrite map_map.
  - by rewrite length_map.
  - apply Forall_map, Forall_true. done.
Qed.

(** X4. An element without a child called "services", the null element
    included, leaves the IQ as it was. *)
Theorem services_iq_without_container `{QtCodecs}
        (this : ExternalService.QXmppExternalServiceDiscoveryIq) (element : QDomElement) :
  Utils.firstChildElement element "services" "" = None ->
  ExternalService.parseElementFromChild this element = this.
Proof.
  intros Hnone. pose proof (parseElementFromChild_entries this element) as Hparsed.
  rewrite Hnone in Hparsed. cbn in Hparsed. rewrite app_nil_r in Hparsed.
  destruct (ExternalService.parseElementFromChild this element), this.
  cbn in Hparsed. by f_equal.
Qed.

Lemma services_iq_without_container_witness :
  ExternalService.parseElementFromChild MoreSamples.twoServices
    (Some Samples.twoChildren) = MoreSamples.twoServices
  /\ ExternalService.parseElementFromChild MoreSamples.twoServices None
     = MoreSamples.twoServices.
Proof.
  split; apply services_iq_without_container; reflexivity.
Defined.

(** X5. Every service that [parseElementFromChild] puts into a new IQ has
    a host and a type that are not empty. *)
Theorem services_iq_entries_have_host_and_type `{QtCodecs} (element : QDomElement) :
  Forall (fun d => hasHostAndType d = true)
         (ExternalService.externalServices
            (ExternalService.parseElementFromChild ExternalService.newIq element)).
Proof.
  rewrite parseElementFromChild_entries. cbn [ExternalService.externalServices
    ExternalService.newIq app].
  apply Forall_map, Forall_forall. intros c Hc.
  apply list_elem_of_In, List.filter_In in Hc as [_ Hc].
  unfold ExternalService.isExternalService in Hc. unfold hasHostAndType.
  rewrite parse_fields. cbv zeta. cbn [ExternalService.host ExternalService.type].
  destruct (String.eqb (tagName (Some c)) "service"); [|discriminate].
  exact Hc.
Qed.

(** ** Lists that are parsed are appended to *)

(** X6. Parsing appends: the services, or devices, read from an element
    come after the entries already there, which stay as they are. *)
Theorem parse_appends `{QtCodecs} :
  (forall (this : ExternalService.QXmppExternalServiceDiscoveryIq) element,
      ExternalService.externalServices (ExternalService.parseElementFromChild this element)
      = ExternalService.externalServices this
        ++ ExternalService.externalServices
             (ExternalService.parseElementFromChild ExternalService.newIq element))
  /\ (forall (this : DeviceList.QXmppOmemoDeviceList) element,
         DeviceList.parse this element = this ++ DeviceList.parse [] element).
Proof.
  split.
  - intros this element. by rewrite !parseElementFromChild_entries.
  - intros this element. by rewrite !parseDeviceList_entries.
Qed.

Example parse_twice_doubles :
  length (ExternalService.externalServices
            (ExternalService.parseElementFromChild
               (ExternalService.parseElementFromChild (@ExternalService.newIq Reference.codecs)
                  (MoreSamples.iqAround (Some Samples.mixedServices)))
               (MoreSamples.iqAround (Some Samples.mixedServices))))
  = (2 * length (ExternalService.externalServices
                   (ExternalService.parseElementFromChild (@ExternalService.newIq Reference.codecs)
                      (MoreSamples.iqAround (Some Samples.mixedServices)))))%nat.
Proof. vm_compute. reflexivity. Qed.

(** ** Pre-keys of a bundle *)

Section PreKeys.
Context `{QtCodecs}.

Lemma foldl_insert_lookup {A} (id : A -> Z) (key : A -> list Byte.byte)
      (l : list A) (m : gmap Z (list Byte.byte)) (i : Z) :
  foldl (fun keys x => <[id x := key x]> keys) m l !! i
  = match List.find (fun x => id x =? i) (rev l) with
    | Some x => Some (key x)
    | None => m !! i
    end.
Proof.
  induction l as [|x l IH] using rev_ind; [done|].
  rewrite foldl_app, rev_app_distr. cbn [foldl rev app List.find].
  destruct (Z.eqb_spec (id x) i) as [->|Hne].
  - by rewrite lookup_insert_eq.
  - by rewrite lookup_insert_ne.
Qed.

Lemma written_preKeys b :
  preKeyElements (emitted (DeviceBundle.toXml b []))
  = map (preKeyElement ns_omemo_2) (qhashItems (DeviceBundle.m_publicPreKeys b)).
Proof.
  unfold preKeyElements. rewrite bundleToXml_emitted, bundle_prekeys.
  apply preKey_children.
Qed.

Lemma preKeyElement_parts u it :
  Dom.attribute (Some (preKeyElement u it)) "id" = Qt.number (fst it)
  /\ Dom.text (Some (preKeyElement u it)) = toBase64 (snd it).
Proof.
  split; [reflexivity|]. unfold preKeyElement, Dom.text. apply nodeText_textNodes.
Qed.

End PreKeys.

(** X7. [toXml] writes one pk element for each stored pre-key, with the
    ID in decimal as the attribute and the key in base64 as the text; the
    order is that of the hash. *)
Theorem bundle_writes_each_prekey `{QtCodecs} (b : DeviceBundle.QXmppOmemoDeviceBundle) :
  map (fun pk => (Dom.attribute (Some pk) "id", Dom.text (Some pk)))
      (preKeyElements (emitted (DeviceBundle.toXml b [])))
  ≡ₚ map (fun it => (Qt.number (fst it), toBase64 (snd it)))
         (map_to_list (DeviceBundle.m_publicPreKeys b)).
Proof.
  rewrite written_preKeys, map_map.
  rewrite (map_ext _ (fun it => (Qt.number (fst it), toBase64 (snd it)))).
  - apply Permutation_map, qhashItems_perm.
  - intros it. by destruct (preKeyElement_parts ns_omemo_2 it) as [-> ->].
Qed.

(** X8. Parsing merges pre-keys into the bundle: an ID that some pk
    element of the prekeys container carries gets the key of the last such
    element, and every other ID keeps what the bundle had. *)
Theorem bundle_parse_merges_prekeys `{QtCodecs}
        (this : DeviceBundle.QXmppOmemoDeviceBundle) (element : QDomElement) (id : Z) :
  DeviceBundle.m_publicPreKeys (DeviceBundle.parse this element) !! id
  = match decidingPreKey id (preKeyElements element) with
    | Some pk => Some (fromBase64 (Dom.text (Some pk)))
    | None => DeviceBundle.m_publicPreKeys this !! id
    end.
Proof.
  rewrite parseBundle_fields. cbn [DeviceBundle.m_publicPreKeys].
  unfold decidingPreKey, preKeyElements.
  destruct (Dom.firstChildElement element "prekeys") as [prekeys|].
  - apply (foldl_insert_lookup (fun pk => Qt.to_uint32 (Qt.toInt (Dom.attribute (Some pk) "id")))
             (fun pk => fromBase64 (Dom.text (Some pk)))).
  - reflexivity.
Qed.

Example repeated_prekey_last_wins :
  DeviceBundle.m_publicPreKeys
    (@DeviceBundle.parse Reference.codecs
       (DeviceBundle.addPublicPreKey DeviceBundle.newBundle 7 Samples.key1)
       (Some MoreSamples.repeatedPreKey))
  = <[1 := Samples.key2]> (<[2 := Samples.key2]> (<[7 := Samples.key1]> ∅)).
Proof. vm_compute. reflexivity. Qed.

(** X9. [addPublicPreKey] stores or replaces the key of one ID,
    [removePublicPreKey] forgets one ID, and neither touches another ID or
    another field; removing an ID that was added to a bundle without it gives
    the bundle back. *)
Theorem prekey_add_remove (b : DeviceBundle.QXmppOmemoDeviceBundle) (id : Z)
        (key : list Byte.byte) :
  let added := DeviceBundle.addPublicPreKey b id key in
  let removed := DeviceBundle.removePublicPreKey b id in
  DeviceBundle.m_publicPreKeys added !! id = Some key
  /\ DeviceBundle.m_publicPreKeys removed !! id = None
  /\ (forall other, other <> id ->
        DeviceBundle.m_publicPreKeys added !! other = DeviceBundle.m_publicPreKeys b !! other
        /\ DeviceBundle.m_publicPreKeys removed !! other = DeviceBundle.m_publicPreKeys b !! other)
  /\ DeviceBundle.removePublicPreKey added id = removed
  /\ (DeviceBundle.m_publicPreKeys b !! id = None -> removed = b)
  /\ (DeviceBundle.m_publicIdentityKey added, DeviceBundle.m_signedPublicPreKey added,
      DeviceBundle.m_signedPublicPreKeyId added, DeviceBundle.m_signedPublicPreKeySignature added)
     = (DeviceBundle.m_publicIdentityKey b, DeviceBundle.m_signedPublicPreKey b,
        DeviceBundle.m_signedPublicPreKeyId b, DeviceBundle.m_signedPublicPreKeySignature b)
  /\ (DeviceBundle.m_publicIdentityKey removed, DeviceBundle.m_signedPublicPreKey removed,
      DeviceBundle.m_signedPublicPreKeyId removed, DeviceBundle.m_signedPublicPreKeySignature removed)
     = (DeviceBundle.m_publicIdentityKey b, DeviceBundle.m_signedPublicPreKey b,
        DeviceBundle.m_signedPublicPreKeyId b, DeviceBundle.m_signedPublicPreKeySignature b).
Proof.
  cbv zeta. destruct b as [ik spk spkid spks keys].
  unfold DeviceBundle.addPublicPreKey, DeviceBundle.removePublicPreKey.
  cbn [DeviceBundle.m_publicPreKeys DeviceBundle.m_publicIdentityKey
       DeviceBundle.m_signedPublicPreKey DeviceBundle.m_signedPublicPreKeyId
       DeviceBundle.m_signedPublicPreKeySignature].
  repeat split.
  - apply lookup_insert_eq.
  - apply lookup_delete_eq.
  - by apply lookup_insert_ne.
  - by apply lookup_delete_ne.
  - by rewrite delete_insert_eq.
  - intros Hnone. f_equal. by apply delete_id.
Qed.

Lemma prekey_add_remove_witness :
  DeviceBundle.removePublicPreKey (DeviceBundle.addPublicPreKey Samples.sampleBundle 9 Samples.key1) 9
  = DeviceBundle.removePublicPreKey Samples.sampleBundle 9
  /\ DeviceBundle.removePublicPreKey Samples.sampleBundle 9 = Samples.sampleBundle.
Proof.
  destruct (prekey_add_remove Samples.sampleBundle 9 Samples.key1)
    as (_ & _ & _ & Hremoved & Hfresh & _).
  split; [exact Hremoved|]. apply Hfresh. vm_compute. reflexivity.
Defined.

(** ** What the writers leave behind *)

Section Depth.
Context `{QtCodecs}.

Lemma depth_app w1 w2 : depth (w1 ++ w2) = depth w1 + depth w2.
Proof.
  unfold depth. induction w1 as [|c w1 IH]; cbn [app foldr]; [lia|].
  rewrite IH. lia.
Qed.

Lemma depth_attributes a : depth (map attributeCall a) = 0.
Proof. unfold depth. induction a as [|x a IH]; cbn [map foldr nesting attributeCall]; lia. Qed.

Lemma depth_concat {A} (g : A -> list XmlCall) (l : list A) :
  (forall x, depth (g x) = 0) -> depth (concat (map g l)) = 0.
Proof.
  intros Hg. induction l as [|x l IH]; [reflexivity|].
  cbn [map concat]. rewrite depth_app, Hg, IH. reflexivity.
Qed.

Lemma depth_cons c w : depth (c :: w) = nesting c + depth w.
Proof. reflexivity. Qed.

Lemma depth_textElementCalls t a s : depth (textElementCalls t a s) = 0.
Proof.
  unfold textElementCalls. rewrite depth_cons, depth_app, depth_attributes. reflexivity.
Qed.

Lemma depth_serviceCalls d : depth (serviceCalls d) = 0.
Proof.
  unfold serviceCalls. rewrite depth_cons, depth_app, depth_attributes. reflexivity.
Qed.

Lemma depth_deviceCalls d : depth (deviceCalls d) = 0.
Proof.
  unfold deviceCalls. rewrite depth_cons, depth_app, depth_attributes. reflexivity.
Qed.

End Depth.

(** X10. Every [toXml] only appends to what the writer already holds, so
    earlier output is left as it is, and it closes each element it opens. *)
Theorem toXml_appends_and_closes `{QtCodecs} (w : QXmlStreamWriter) :
  (forall d, ExternalService.toXml d w = w ++ ExternalService.toXml d []
             /\ depth (ExternalService.toXml d []) = 0)
  /\ (forall iq, ExternalService.toXmlElementFromChild iq w
                 = w ++ ExternalService.toXmlElementFromChild iq []
                 /\ depth (ExternalService.toXmlElementFromChild iq []) = 0)
  /\ (forall d, DeviceElement.toXml d w = w ++ DeviceElement.toXml d []
                /\ depth (DeviceElement.toXml d []) = 0)
  /\ (forall l, DeviceList.toXml l w = w ++ DeviceList.toXml l []
                /\ depth (DeviceList.toXml l []) = 0)
  /\ (forall b, DeviceBundle.toXml b w = w ++ DeviceBundle.toXml b []
                /\ depth (DeviceBundle.toXml b []) = 0).
Proof.
  split; [|split; [|split; [|split]]].
  - intros d. rewrite (toXml_serviceCalls d w), (toXml_serviceCalls d []), app_nil_l.
    split; [reflexivity | apply depth_serviceCalls].
  - intros iq.
    rewrite (toXmlElementFromChild_calls iq w), (toXmlElementFromChild_calls iq []), app_nil_l.
    split; [reflexivity|].
    rewrite !depth_cons, depth_app, (depth_concat serviceCalls) by apply depth_serviceCalls.
    reflexivity.
  - intros d. rewrite (deviceToXml_calls d w), (deviceToXml_calls d []), app_nil_l.
    split; [reflexivity | apply depth_deviceCalls].
  - intros l. rewrite (deviceListToXml_calls l w), (deviceListToXml_calls l []), app_nil_l.
    split; [reflexivity|].
    rewrite !depth_cons, depth_app, (depth_concat deviceCalls) by apply depth_deviceCalls.
    reflexivity.
  - intros b. rewrite (bundleToXml_calls b w), (bundleToXml_calls b []), app_nil_l.
    split; [reflexivity|].
    rewrite !depth_cons, !depth_app, !depth_textElementCalls, depth_cons, depth_app.
    rewrite (depth_concat preKeyCalls) by (intros it; apply depth_textElementCalls).
    reflexivity.
Qed.

(** ** Attributes of a written service *)

Section AttributeNames.
Context `{QtCodecs}.



End AttributeNames.


(** ** Device IDs *)

(** X12. A device with any [uint32_t] ID is written with the ID in full,
    and read back with the same label; the ID comes back when it is at most
    INT32_MAX, and as 0 above that. *)
Theorem device_round_trip_uint32 (d : DeviceElement.QXmppOmemoDeviceElement) :
  0 <= DeviceElement.m_id d < 2 ^ 32 ->
  Dom.attribute (emitted (DeviceElement.toXml d [])) "id" = Qt.number (DeviceElement.m_id d)
  /\ DeviceElement.parse DeviceElement.newDevice (emitted (DeviceElement.toXml d []))
     = DeviceElement.mkDevice
         (if DeviceElement.m_id d <=? Qt.INT_MAX then DeviceElement.m_id d else 0)
         (DeviceElement.m_label d).
Proof.
  intros Hid. rewrite deviceToXml_emitted. split; [reflexivity|].
  rewrite parseDevice_fields. destruct d as [i l]. cbn [DeviceElement.m_id DeviceElement.m_label] in *.
  unfold attribute, deviceElement, deviceAttributes.
  cbn [attributes lookupAttribute String.eqb Ascii.eqb Bool.eqb DeviceElement.m_id
       DeviceElement.m_label default].
  f_equal.
  - destruct (Z.leb_spec i Qt.INT_MAX) as [Hle|Hgt].
    + rewrite toInt_number by (unfold Qt.INT_MIN; lia). apply to_uint32_small. lia.
    + by rewrite toInt_number_overflow.
  - unfold optAttr. by destruct l.
Qed.

Lemma device_round_trip_uint32_witness :
  DeviceElement.parse DeviceElement.newDevice
    (emitted (DeviceElement.toXml (DeviceElement.mkDevice 4294967295 "Phone") []))
  = DeviceElement.mkDevice 0 "Phone".
Proof.
  apply (device_round_trip_uint32 (DeviceElement.mkDevice 4294967295 "Phone")).
  vm_compute. split; [discriminate | reflexivity].
Defined.

